(** * CSVParser.h: a shallow embedding and its checked properties

    The header defines four things: [convertFromString] (one field to one
    typed value), [CSVRow] (tokenizer [parse] and typed conversion
    [convertToTuple]), [CSVParserIterator] (the pull loop [advance]) and
    [CSVParser] (construction, line skipping, [begin]/[end]).

    Streams ([std::stringstream], [std::ifstream]) are modelled by their
    unread characters and their [eofbit]/[failbit]; a C++ exception is the
    [Throw] outcome, and an operation whose precondition is violated
    ([front]/[back] of an empty string, [operator[]] past the end of a
    vector, signed overflow) is the [Undefined] outcome.

    The output side ([print_tuple], [operator<<] on tuples) and the loop of
    [main.cpp] are embedded after the parser; an output stream is the
    sequence of characters written to it. *)

From Stdlib Require Import String Ascii List ZArith Lia Bool Arith.
From Stdlib Require Import NArith.
From Stdlib Require Import Floats.SpecFloat.
From Equations Require Import Equations.
From Equations.Prop Require Import Logic.
Import ListNotations.

Local Open Scope string_scope.
Local Open Scope Z_scope.

(** ** Outcomes of a C++ computation *)

Inductive exn : Type :=
| invalid_argument (what : string)
| out_of_range (what : string)
| CSVParseException (what : string) (line : Z) (column : Z).

Inductive outcome (A : Type) : Type :=
| Ok (a : A)
| Throw (e : exn)
| Undefined.

Arguments Ok {A} a.
Arguments Throw {A} e.
Arguments Undefined {A}.

Definition bind {A B : Type} (m : outcome A) (k : A -> outcome B) : outcome B :=
  match m with
  | Ok a => k a
  | Throw e => Throw e
  | Undefined => Undefined
  end.

Notation "x <- m ;; k" := (bind m (fun x => k))
  (at level 61, m at next level, right associativity).

(** [try { m } catch (...) { throw e; }] *)
Definition catch_all {A : Type} (m : outcome A) (e : exn) : outcome A :=
  match m with
  | Ok a => Ok a
  | Throw _ => Throw e
  | Undefined => Undefined
  end.

(** ** std::string *)

Definition size_t_modulus : Z := 2 ^ 64.
Definition npos : Z := size_t_modulus - 1.

(** Subtraction on [size_t] wraps around. *)
Definition size_t_sub (a b : Z) : Z := (a - b) mod size_t_modulus.

Definition size (s : string) : Z := Z.of_nat (String.length s).

Definition empty (s : string) : bool :=
  match s with
  | EmptyString => true
  | String _ _ => false
  end.

(** [s.front()]: requires [!s.empty()]. *)
Definition front (s : string) : outcome ascii :=
  match s with
  | EmptyString => Undefined
  | String c _ => Ok c
  end.

Fixpoint last_char (c : ascii) (s : string) : ascii :=
  match s with
  | EmptyString => c
  | String c' s' => last_char c' s'
  end.

(** [s.back()]: requires [!s.empty()]. *)
Definition back (s : string) : outcome ascii :=
  match s with
  | EmptyString => Undefined
  | String c s' => Ok (last_char c s')
  end.

(** [s.substr(pos, count)]: throws [std::out_of_range] when [pos > size()],
    otherwise the characters [pos, pos + min(count, size() - pos))]. *)
Definition substr (s : string) (pos count : Z) : outcome string :=
  if size s <? pos then Throw (out_of_range "basic_string::substr")
  else Ok (String.substring (Z.to_nat pos)
                            (Z.to_nat (Z.min count (size s - pos))) s).

(** ** Input streams *)

(** The unread characters and the two state bits the code looks at. *)
Record istream : Type := mk_istream {
  rdbuf : string;
  eofbit : bool;
  failbit : bool
}.

(** [std::stringstream ss(str)] *)
Definition stringstream (str : string) : istream :=
  {| rdbuf := str; eofbit := false; failbit := false |}.

(** [strm.good()] *)
Definition good (strm : istream) : bool := negb (eofbit strm) && negb (failbit strm).

(** [strm.fail()] and the conversion to [bool] used by [while (getline(...))]. *)
Definition fail (strm : istream) : bool := failbit strm.
Definition eof (strm : istream) : bool := eofbit strm.
Definition to_bool (strm : istream) : bool := negb (fail strm).

(** The extraction loop of [std::getline]: characters up to the delimiter
    (extracted and dropped) or to the end of the input.  Returns the
    characters stored, the unread rest, and whether the end was hit. *)
Fixpoint getline_scan (s : string) (delim : ascii) : string * string * bool :=
  match s with
  | EmptyString => (EmptyString, EmptyString, true)
  | String c r =>
      if Ascii.eqb c delim then (EmptyString, r, false)
      else let '(cell, rest, e) := getline_scan r delim in
           (String c cell, rest, e)
  end.

(** [std::getline(strm, str, delim)]: if the stream is not good the sentry
    fails, [failbit] is set and [str] is left alone; otherwise [str] is
    erased and filled, [eofbit] is set when the end is hit, and [failbit] is
    set when nothing at all was extracted. *)
Definition getline (strm : istream) (str : string) (delim : ascii) : istream * string :=
  if good strm then
    let '(cell, rest, e) := getline_scan (rdbuf strm) delim in
    if e && empty cell
    then ({| rdbuf := rest; eofbit := true; failbit := true |}, cell)
    else ({| rdbuf := rest; eofbit := e; failbit := false |}, cell)
  else ({| rdbuf := rdbuf strm; eofbit := eofbit strm; failbit := true |}, str).

(** ** Formatted extraction of a signed integer: [strm >> value] *)

Inductive inttype : Type := Tshort | Tint | Tlong.

Definition int_min (t : inttype) : Z :=
  match t with
  | Tshort => - 2 ^ 15
  | Tint => - 2 ^ 31
  | Tlong => - 2 ^ 63
  end.

Definition int_max (t : inttype) : Z :=
  match t with
  | Tshort => 2 ^ 15 - 1
  | Tint => 2 ^ 31 - 1
  | Tlong => 2 ^ 63 - 1
  end.

(** [std::isspace] in the classic locale. *)
Definition isspace (c : ascii) : bool :=
  let n := N_of_ascii c in
  (N.eqb n 32 || (N.leb 9 n && N.leb n 13))%N.

Definition isdigit (c : ascii) : bool :=
  let n := N_of_ascii c in
  (N.leb 48 n && N.leb n 57)%N.

Definition digit_value (c : ascii) : Z := Z.of_N (N_of_ascii c) - 48.

(** The sentry's [skipws] step. *)
Fixpoint skipws (s : string) : string :=
  match s with
  | EmptyString => EmptyString
  | String c r => if isspace c then skipws r else s
  end.

(** Accumulate decimal digits; returns the value, the number of digits
    read and the unread rest. *)
Fixpoint scan_digits (s : string) (acc : Z) (n : nat) : Z * nat * string :=
  match s with
  | EmptyString => (acc, n, EmptyString)
  | String c r =>
      if isdigit c then scan_digits r (10 * acc + digit_value c) (S n)
      else (acc, n, s)
  end.

Definition scan_sign (s : string) : bool * string :=
  match s with
  | String "-" r => (true, r)
  | String "+" r => (false, r)
  | _ => (false, s)
  end.

(** [strm >> value] for a signed integer type with default flags ([skipws],
    [dec]): the stream afterwards and the value stored, if one is.  A value
    outside the range of the type sets [failbit]. *)
Definition extract (t : inttype) (strm : istream) : istream * option Z :=
  if good strm then
    match skipws (rdbuf strm) with
    | EmptyString => ({| rdbuf := EmptyString; eofbit := true; failbit := true |}, None)
    | String _ _ as s1 =>
        let '(negative, s2) := scan_sign s1 in
        let '(v, n, rest) := scan_digits s2 0 0 in
        let e := empty rest in
        match n with
        | O => ({| rdbuf := rest; eofbit := e; failbit := true |}, Some 0)
        | S _ =>
            let sv := if negative then - v else v in
            if sv <? int_min t
            then ({| rdbuf := rest; eofbit := e; failbit := true |}, Some (int_min t))
            else if int_max t <? sv
            then ({| rdbuf := rest; eofbit := e; failbit := true |}, Some (int_max t))
            else ({| rdbuf := rest; eofbit := e; failbit := false |}, Some sv)
        end
    end
  else ({| rdbuf := rdbuf strm; eofbit := eofbit strm; failbit := true |}, None).

(** ** convertFromString *)

(** The target types of a schema: [std::string] and the signed integer
    types.  Floating-point targets are not embedded. *)
Inductive ctype : Type :=
| Tstring
| Tnum (t : inttype).

Inductive value : Type :=
| Vstring (s : string)
| Vnum (t : inttype) (z : Z).

(** [typeid(T).name()] *)
Definition typeid_name (t : inttype) : string :=
  match t with
  | Tshort => "s"
  | Tint => "i"
  | Tlong => "l"
  end.

Definition convertFromString (T : ctype) (str : string) : outcome value :=
  match T with
  | Tstring => Ok (Vstring str)
  | Tnum t =>
      let '(ss, v) := extract t (stringstream str) in
      if fail ss || negb (eof ss)
      then Throw (invalid_argument
                    ("Can't convert '" ++ str ++ "' into " ++ typeid_name t))
      else match v with
           | Some z => Ok (Vnum t z)
           | None => Undefined
           end
  end.

(** ** CSVRow *)

Module CSVRow.

Record t : Type := mk {
  LineNumber : Z;
  values : list string;
  delimiter : ascii;
  quote : ascii
}.

(** Body of the [while] loop of [parse], up to [values.push_back(cell)]:
    the new [inQuotes] flag and the new contents of [cell]. *)
Definition parse_cell (quote : ascii) (inQuotes : bool) (cell : string)
  : outcome (bool * string) :=
  if negb inQuotes then
    f <- front cell ;;
    both <- (if Ascii.eqb f quote
             then b <- back cell ;; Ok (Ascii.eqb b quote)
             else Ok false) ;;
    if both : bool then
      c <- substr cell 1 (size_t_sub (size cell) 2) ;;
      Ok (inQuotes, c)
    else
      f' <- front cell ;;
      if Ascii.eqb f' quote then
        c <- substr cell 1 npos ;;
        Ok (true, c)
      else Ok (inQuotes, cell)
  else
    b <- back cell ;;
    if Ascii.eqb b quote then
      c <- substr cell 0 (size_t_sub (size cell) 1) ;;
      Ok (false, c)
    else Ok (inQuotes, cell).

(** Every successful [getline] on a good stream shortens the buffer. *)
Lemma getline_shortens (ss ss' : istream) (cell cell' : string) (d : ascii) :
  getline ss cell d = (ss', cell') -> to_bool ss' = true ->
  (String.length (rdbuf ss') < String.length (rdbuf ss))%nat.
Proof.
  unfold getline, to_bool, fail.
  destruct (good ss).
  - generalize (rdbuf ss) as s. intros s.
    assert (H : forall c r e, getline_scan s d = (c, r, e) ->
              (String.length r <= String.length s)%nat /\
              (e && empty c = false -> String.length r < String.length s)%nat).
    { induction s as [|a s IH]; simpl; intros c r e E.
      - inversion E; subst. simpl. split; [lia | discriminate].
      - destruct (Ascii.eqb a d).
        + inversion E; subst. simpl. split; intros; lia.
        + destruct (getline_scan s d) as [[c0 r0] e0].
          inversion E; subst. destruct (IH _ _ _ eq_refl) as [IH1 _].
          split; intros; lia. }
    destruct (getline_scan s d) as [[c r] e] eqn:E.
    destruct (H _ _ _ eq_refl) as [_ H2].
    destruct (e && empty c) eqn:B; intros Hg Hb; inversion Hg; subst; simpl in *.
    + discriminate.
    + auto.
  - intros Hg Hb. inversion Hg; subst. simpl in Hb. discriminate.
Qed.

(** The [while (getline(ss, cell, delimiter))] loop of [parse]; it ends
    because each round that enters the body has consumed input. *)
Equations? parse_loop (delimiter quote : ascii) (ss : istream) (cell : string)
    (inQuotes : bool) (values : list string)
  : outcome (list string) by wf (String.length (rdbuf ss)) lt :=
  parse_loop delimiter quote ss cell inQuotes values
    with inspect (getline ss cell delimiter) := {
    | exist _ (ss', cell') Hg with inspect (to_bool ss') := {
      | exist _ true Hb with parse_cell quote inQuotes cell' := {
        | Ok (inQuotes', cell'') :=
            parse_loop delimiter quote ss' cell'' inQuotes' (values ++ [cell''])
        | Throw e := Throw e
        | Undefined := Undefined }
      | exist _ false _ := Ok values } }.
Proof. eapply getline_shortens; eauto. Qed.

(** [parse(line)]: appends the cells of [line] to [values]. *)
Definition parse (row : t) (line : string) : outcome t :=
  vs <- parse_loop (delimiter row) (quote row) (stringstream line)
                   EmptyString false (values row) ;;
  Ok {| LineNumber := LineNumber row; values := vs;
        delimiter := delimiter row; quote := quote row |}.

(** The constructor [CSVRow(line, delimiter, quote, lineNumber)]. *)
Definition new (line : string) (delimiter quote : ascii) (lineNumber : Z)
  : outcome t :=
  let row := {| LineNumber := lineNumber; values := [];
                delimiter := delimiter; quote := quote |} in
  if negb (empty line) then parse row line else Ok row.

(** [values[Index]]: [std::vector::operator[]] requires [Index < size()]. *)
Definition values_at (row : t) (Index : nat) : outcome string :=
  match nth_error (values row) Index with
  | Some s => Ok s
  | None => Undefined
  end.

(** [convertToTuple<Index, T, Rest...>()].  The tuple is the list of its
    components.  [LineNumber] is a [size_t] holding a value that came from
    an [int], and [Index] is a template argument, so both conversions to
    the [int] fields of the exception keep the value. *)
Fixpoint convertToTuple (row : t) (Index : nat) (T : ctype) (Rest : list ctype)
  : outcome (list value) :=
  v <- catch_all (s <- values_at row Index ;; convertFromString T s)
                 (CSVParseException "Error parsing value"
                                    (LineNumber row) (Z.of_nat Index)) ;;
  match Rest with
  | T' :: Rest' =>
      rest <- convertToTuple row (Index + 1) T' Rest' ;;
      Ok (v :: rest)
  | [] => Ok [v]
  end.

(** [convertToTuple<T>()], the overload without an index.  [getValues]
    always passes the index as first template argument, which this
    overload cannot take, so overload resolution never selects it. *)
Definition convertToTuple1 (row : t) (T : ctype) : outcome (list value) :=
  v <- catch_all (s <- values_at row 0 ;; convertFromString T s)
                 (CSVParseException "Error parsing value" 0 0) ;;
  Ok [v].

(** [getValues()] is [convertToTuple<0, Args...>()], with [Args = T, Rest]. *)
Definition getValues (row : t) (T : ctype) (Rest : list ctype)
  : outcome (list value) :=
  convertToTuple row 0 T Rest.

End CSVRow.

(** ** CSVParserIterator *)

(** The iterator holds a pointer to the [std::ifstream] of the parser.  The
    stream is the state threaded through the operations that read it. *)
Module CSVParserIterator.

Record t : Type := mk {
  currentRow : CSVRow.t;
  end_ : bool;
  lineNumber : Z
}.

Definition INT_MAX : Z := int_max Tint.

(** [advance()].  [getline] on the file splits at the newline character;
    [lineNumber++] on an [int] is undefined at [INT_MAX]. *)
Definition advance (file : istream) (it : t) : outcome (istream * t) :=
  let '(file', line) := getline file EmptyString "010" in
  if to_bool file' then
    if lineNumber it =? INT_MAX then Undefined
    else
      let n := lineNumber it + 1 in
      row <- CSVRow.new line "," "034" n ;;
      Ok (file', {| currentRow := row; end_ := end_ it; lineNumber := n |})
  else
    Ok (file', {| currentRow := currentRow it; end_ := true;
                  lineNumber := lineNumber it |}).

(** The constructor [CSVParserIterator(file, end, delimiter, quote)]. *)
Definition new (file : istream) (end_flag : bool) (delimiter quote : ascii)
  : outcome (istream * t) :=
  row <- CSVRow.new EmptyString delimiter quote 0 ;;
  let it := {| currentRow := row; end_ := end_flag; lineNumber := 0 |} in
  if negb end_flag then advance file it else Ok (file, it).

(** [operator*] *)
Definition deref (it : t) (T : ctype) (Rest : list ctype) : outcome (list value) :=
  CSVRow.getValues (currentRow it) T Rest.

(** [operator++] *)
Definition incr (file : istream) (it : t) : outcome (istream * t) :=
  advance file it.

(** [operator!=] *)
Definition neq (it other : t) : bool := negb (Bool.eqb (end_ it) (end_ other)).

End CSVParserIterator.

(** ** CSVParser *)

Module CSVParser.

(** The parser keeps a reference to the caller's stream, which is threaded
    as state, and the two characters. *)
Record t : Type := mk {
  delimiter : ascii;
  quote : ascii
}.

(** The skipping loop of the constructor: [skipLines] calls of [getline],
    whose result is not looked at. *)
Fixpoint skip (file : istream) (skipLines : nat) : istream :=
  match skipLines with
  | O => file
  | S n => skip (fst (getline file EmptyString "010")) n
  end.

(** The constructor [CSVParser(file, skipLines, delimiter, quote)]. *)
Definition new (file : istream) (skipLines : nat) (delimiter quote : ascii)
  : istream * t :=
  (skip file skipLines, {| delimiter := delimiter; quote := quote |}).

(** [begin()] *)
Definition begin (file : istream) (p : t)
  : outcome (istream * CSVParserIterator.t) :=
  CSVParserIterator.new file false (delimiter p) (quote p).

(** [end()] *)
Definition end_ (file : istream) (p : t)
  : outcome (istream * CSVParserIterator.t) :=
  CSVParserIterator.new file true (delimiter p) (quote p).

End CSVParser.

(** A stream over the given file contents, as [std::ifstream file(name)]
    gives for a file that opens. *)
Definition ifstream (contents : string) : istream := stringstream contents.

(** [CSVParser<T, Rest...> parser(file, skipLines, delimiter, quote)]
    followed by [parser.begin()]. *)
Definition open_stream (file : istream) (skipLines : nat) (delimiter quote : ascii)
  : outcome (istream * CSVParserIterator.t) :=
  let '(file', p) := CSVParser.new file skipLines delimiter quote in
  CSVParser.begin file' p.

(** ** Vocabulary of the statements *)

(** The cells that the successive [getline] calls of [parse] read from a
    line: the text between delimiters, with no cell after a final
    delimiter ([getline_cells_scan] ties it to [getline_scan]). *)
Fixpoint getline_cells (d : ascii) (s : string) : list string :=
  match s with
  | EmptyString => []
  | String c r =>
      if Ascii.eqb c d then EmptyString :: getline_cells d r
      else match getline_cells d r with
           | [] => [String c EmptyString]
           | x :: xs => String c x :: xs
           end
  end.

(** The loop body of [parse] run over a list of cells. *)
Fixpoint process_cells (q : ascii) (inQuotes : bool) (cells : list string)
    (vals : list string) : outcome (list string) :=
  match cells with
  | [] => Ok vals
  | c :: cs =>
      match CSVRow.parse_cell q inQuotes c with
      | Ok (inQuotes', c') => process_cells q inQuotes' cs (vals ++ [c'])
      | Throw e => Throw e
      | Undefined => Undefined
      end
  end.

(** Occurrences of the delimiter in a line. *)
Fixpoint count_delim (d : ascii) (s : string) : nat :=
  match s with
  | EmptyString => O
  | String c r => ((if Ascii.eqb c d then 1 else 0) + count_delim d r)%nat
  end.

(** The line ends with the delimiter. *)
Definition ends_with (d : ascii) (s : string) : bool :=
  match s with
  | EmptyString => false
  | String c r => Ascii.eqb (last_char c r) d
  end.

(** The number of cells as the specification counts them: delimiter
    occurrences plus one. *)
Definition naive_cell_count (d : ascii) (s : string) : nat :=
  (count_delim d s + 1)%nat.

(** [tok] is [cell] with at most one leading and at most one trailing quote
    character removed. *)
Definition stripped (q : ascii) (cell tok : string) : Prop :=
  exists a b : string,
    cell = a ++ tok ++ b /\
    (a = EmptyString \/ a = String q EmptyString) /\
    (b = EmptyString \/ b = String q EmptyString).

(** No cell of the line is empty. *)
Definition no_empty_cell (d : ascii) (line : string) : bool :=
  forallb (fun c => negb (empty c)) (getline_cells d line).

(** [String c s] without its last character. *)
Fixpoint drop_last (c : ascii) (s : string) : string :=
  match s with
  | EmptyString => EmptyString
  | String c' s' => String c (drop_last c' s')
  end.

(** [n] pulls on the stream: [operator++] applied [n] times. *)
Fixpoint pulls (n : nat) (file : istream) (it : CSVParserIterator.t)
  : outcome (istream * CSVParserIterator.t) :=
  match n with
  | O => Ok (file, it)
  | S n' =>
      r <- CSVParserIterator.incr file it ;;
      pulls n' (fst r) (snd r)
  end.

(** The line source has no further line: the next [getline] fails. *)
Definition exhausted (file : istream) : bool :=
  negb (to_bool (fst (getline file EmptyString "010"))).

(** The newline character as a string. *)
Definition nl : string := String "010" EmptyString.

(** Numerals: an optional sign and decimal digits. *)
Inductive sign : Type := NoSign | Plus | Minus.

Definition sign_string (sg : sign) : string :=
  match sg with
  | NoSign => EmptyString
  | Plus => "+"
  | Minus => "-"
  end.

Fixpoint string_forall (p : ascii -> bool) (s : string) : bool :=
  match s with
  | EmptyString => true
  | String c r => p c && string_forall p r
  end.

(** The value of a string of decimal digits, continuing from [acc]. *)
Fixpoint decimal (acc : Z) (ds : string) : Z :=
  match ds with
  | EmptyString => acc
  | String c r => decimal (10 * acc + digit_value c) r
  end.

Definition numeral_value (sg : sign) (ds : string) : Z :=
  match sg with
  | Minus => - decimal 0 ds
  | _ => decimal 0 ds
  end.

(** The string does not start with a digit. *)
Definition no_leading_digit (s : string) : bool :=
  match s with
  | EmptyString => true
  | String c _ => negb (isdigit c)
  end.

(** The fields of a line joined by the delimiter. *)
Fixpoint join (d : ascii) (fields : list string) : string :=
  match fields with
  | [] => EmptyString
  | f :: fs =>
      match fs with
      | [] => f
      | _ :: _ => f ++ String d (join d fs)
      end
  end.

(** A field between two quote characters. *)
Definition quoted (q : ascii) (f : string) : string :=
  String q (f ++ String q EmptyString).

(** The character does not occur in the string. *)
Definition free_of (c : ascii) (s : string) : bool :=
  string_forall (fun x => negb (Ascii.eqb x c)) s.

(** The string starts with the character. *)
Definition starts_with (c : ascii) (s : string) : bool :=
  match s with
  | EmptyString => false
  | String x _ => Ascii.eqb x c
  end.

(** ** Output *)

(** An output stream is the sequence of characters written to it. *)
Definition ostream : Type := string.

Definition digit_char (n : N) : ascii := ascii_of_N (48 + n).

(** The digit loop of integer output: the last digit is produced first and
    the number divided by ten until it is used up. *)
Fixpoint put_digits (fuel : nat) (n : N) (acc : string) : string :=
  match fuel with
  | O => acc
  | S fuel' =>
      let acc' := String (digit_char (n mod 10)) acc in
      if (n <? 10)%N then acc' else put_digits fuel' (n / 10) acc'
  end.

(** The decimal digits of [n].  The loop runs once per decimal digit, which
    is at most the number of bits ([put_N_value]). *)
Definition put_N (n : N) : string :=
  put_digits (S (N.to_nat (N.log2 n))) n EmptyString.

(** The characters that [os << z] writes for a signed integer [z] under the
    default flags. *)
Definition put_integer (z : Z) : string :=
  if z <? 0 then String "-" (put_N (Z.to_N (- z))) else put_N (Z.to_N z).

(** [stream << v] for a component of a tuple. *)
Definition shl_value (stream : ostream) (v : value) : ostream :=
  match v with
  | Vstring s => stream ++ s
  | Vnum _ z => stream ++ put_integer z
  end.

(** [print_tuple<idx>(stream, t)] *)
Equations? print_tuple (idx : nat) (stream : ostream) (t : list value)
  : ostream by wf (List.length t - idx)%nat lt :=
  print_tuple idx stream t with inspect (idx <? List.length t)%nat := {
    | exist _ true Hlt :=
        print_tuple (idx + 1)
          (shl_value (if negb (idx =? 0)%nat then stream ++ ", " else stream)
                     (nth idx t (Vstring EmptyString)))
          t
    | exist _ false _ := stream }.
Proof. apply Nat.ltb_lt in Hlt. lia. Qed.

(** [stream << t] for a tuple [t]. *)
Definition shl_tuple (stream : ostream) (t : list value) : ostream :=
  if (List.length t =? 0)%nat then stream ++ "{}"
  else print_tuple 0 (stream ++ "{") t ++ "}".

(** The characters written for one value. *)
Definition show (v : value) : string := shl_value EmptyString v.

(** ** main.cpp *)

(** The two output streams of the program. *)
Record console : Type := mk_console {
  cout : ostream;
  cerr : ostream
}.

(** The range-based [for] loop over the parser, from [b = begin()] to
    [e = end()]: [for (; b != e; ++b) { rs = *b; std::cout << rs << std::endl; }].
    The characters written so far are kept when the loop is left by an
    exception.  [None] stands for a loop that is still running when the fuel
    is used up. *)
Fixpoint for_rows (fuel : nat) (T : ctype) (Rest : list ctype) (file : istream)
    (b e : CSVParserIterator.t) (out : ostream)
  : option (ostream * outcome unit) :=
  match fuel with
  | O => None
  | S fuel' =>
      if CSVParserIterator.neq b e then
        match CSVParserIterator.deref b T Rest with
        | Ok rs =>
            let out' := shl_tuple out rs ++ nl in
            match CSVParserIterator.incr file b with
            | Ok (file', b') => for_rows fuel' T Rest file' b' e out'
            | Throw x => Some (out', Throw x)
            | Undefined => Some (out', Undefined)
            end
        | Throw x => Some (out, Throw x)
        | Undefined => Some (out, Undefined)
        end
      else Some (out, Ok tt)
  end.

(** The body of [main] for a parser of schema [T, Rest...] over a stream
    [file]: the loop inside [try], the handler for [CSVParseException], and
    the return value.  ([main.cpp] itself instantiates the schema with
    [std::string, int, double] and opens [test.csv].) *)
Definition main (fuel : nat) (T : ctype) (Rest : list ctype) (file : istream)
  : option (console * outcome Z) :=
  let '(file1, parser) := CSVParser.new file 0 "," "034" in
  match CSVParser.begin file1 parser with
  | Ok (file2, b) =>
      match CSVParser.end_ file2 parser with
      | Ok (file3, e) =>
          match for_rows fuel T Rest file3 b e EmptyString with
          | None => None
          | Some (out, Ok _) =>
              Some ({| cout := out; cerr := EmptyString |}, Ok 0)
          | Some (out, Throw (CSVParseException what line column)) =>
              Some ({| cout := out;
                       cerr := "Error at line " ++ put_integer line
                               ++ ", column " ++ put_integer column
                               ++ ": " ++ what ++ nl |}, Ok 0)
          | Some (out, Throw x) =>
              Some ({| cout := out; cerr := EmptyString |}, Throw x)
          | Some (out, Undefined) =>
              Some ({| cout := out; cerr := EmptyString |}, Undefined)
          end
      | Throw x => Some ({| cout := EmptyString; cerr := EmptyString |}, Throw x)
      | Undefined => Some ({| cout := EmptyString; cerr := EmptyString |}, Undefined)
      end
  | Throw x => Some ({| cout := EmptyString; cerr := EmptyString |}, Throw x)
  | Undefined => Some ({| cout := EmptyString; cerr := EmptyString |}, Undefined)
  end.

(** A file made of the given lines, each ended by a newline. *)
Fixpoint unlines (lines : list string) : string :=
  match lines with
  | [] => EmptyString
  | l :: ls => l ++ String "010" (unlines ls)
  end.

(** What the stream makes of one line numbered [n]: the row built by
    [advance], then its tuple. *)
Definition decode_line (T : ctype) (Rest : list ctype) (n : Z) (line : string)
  : outcome (list value) :=
  row <- CSVRow.new line "," "034" n ;;
  CSVRow.getValues row T Rest.

(** The text that the loop of [main] writes for the given tuples. *)
Fixpoint rows_text (tuples : list (list value)) : string :=
  match tuples with
  | [] => EmptyString
  | t :: ts => shl_tuple EmptyString t ++ nl ++ rows_text ts
  end.

(** ** convertFromString for every numeric target type

    The schema above holds the types the rows are decoded into.  The
    conversion template itself accepts every type that [operator>>] reads
    as a number: the signed and unsigned integer types and the
    floating-point types ([bool] and the character types are not numeric
    types: a character type is read as one character, not as a numeral).
    This module embeds its numeric branch for all of them, for the classic
    locale and the LP64 data model with IEEE single and double and the
    80-bit extended [long double]. *)

Module Numeric.

Inductive numtype : Type :=
| Short | Int | Long | LongLong
| UShort | UInt | ULong | ULongLong
| Float | Double | LongDouble.

(** How [operator>>] reads the type: a signed integer of a given range, an
    unsigned integer of a given maximum, or a binary floating-point format
    of a given precision and exponent bound. *)
Inductive kind : Type :=
| Signed (lo hi : Z)
| Unsigned (max : Z)
| Floating (prec emax : Z).

Definition kind_of (T : numtype) : kind :=
  match T with
  | Short => Signed (- 2 ^ 15) (2 ^ 15 - 1)
  | Int => Signed (- 2 ^ 31) (2 ^ 31 - 1)
  | Long => Signed (- 2 ^ 63) (2 ^ 63 - 1)
  | LongLong => Signed (- 2 ^ 63) (2 ^ 63 - 1)
  | UShort => Unsigned (2 ^ 16 - 1)
  | UInt => Unsigned (2 ^ 32 - 1)
  | ULong => Unsigned (2 ^ 64 - 1)
  | ULongLong => Unsigned (2 ^ 64 - 1)
  | Float => Floating 24 128
  | Double => Floating 53 1024
  | LongDouble => Floating 64 16384
  end.

(** A value of a numeric type: an integer, or a binary floating-point
    number. *)
Inductive numvalue : Type :=
| Integer (z : Z)
| Real (x : spec_float).

(** [typeid(T).name()] *)
Definition typeid_name (T : numtype) : string :=
  match T with
  | Short => "s" | Int => "i" | Long => "l" | LongLong => "x"
  | UShort => "t" | UInt => "j" | ULong => "m" | ULongLong => "y"
  | Float => "f" | Double => "d" | LongDouble => "e"
  end.

(** [strm >> value] for a signed integer type of range [lo, hi]: the
    extraction of [extract], with the range as parameters. *)
Definition extract_signed (lo hi : Z) (strm : istream) : istream * option Z :=
  if good strm then
    match skipws (rdbuf strm) with
    | EmptyString => ({| rdbuf := EmptyString; eofbit := true; failbit := true |}, None)
    | String _ _ as s1 =>
        let '(negative, s2) := scan_sign s1 in
        let '(v, n, rest) := scan_digits s2 0 0 in
        let e := empty rest in
        match n with
        | O => ({| rdbuf := rest; eofbit := e; failbit := true |}, Some 0)
        | S _ =>
            let sv := if negative then - v else v in
            if sv <? lo
            then ({| rdbuf := rest; eofbit := e; failbit := true |}, Some lo)
            else if hi <? sv
            then ({| rdbuf := rest; eofbit := e; failbit := true |}, Some hi)
            else ({| rdbuf := rest; eofbit := e; failbit := false |}, Some sv)
        end
    end
  else ({| rdbuf := rdbuf strm; eofbit := eofbit strm; failbit := true |}, None).

(** [strm >> value] for an unsigned integer type of maximum [max]: the
    digits are accumulated as an unsigned number, which overflows above
    [max]; a minus sign negates the result in the unsigned type. *)
Definition extract_unsigned (max : Z) (strm : istream) : istream * option Z :=
  if good strm then
    match skipws (rdbuf strm) with
    | EmptyString => ({| rdbuf := EmptyString; eofbit := true; failbit := true |}, None)
    | String _ _ as s1 =>
        let '(negative, s2) := scan_sign s1 in
        let '(v, n, rest) := scan_digits s2 0 0 in
        let e := empty rest in
        match n with
        | O => ({| rdbuf := rest; eofbit := e; failbit := true |}, Some 0)
        | S _ =>
            if max <? v
            then ({| rdbuf := rest; eofbit := e; failbit := true |}, Some max)
            else ({| rdbuf := rest; eofbit := e; failbit := false |},
                  Some (if negative then (- v) mod (max + 1) else v))
        end
    end
  else ({| rdbuf := rdbuf strm; eofbit := eofbit strm; failbit := true |}, None).

(** The leading decimal digits of a string, and what follows them. *)
Fixpoint span_digits (s : string) : string * string :=
  match s with
  | EmptyString => (EmptyString, EmptyString)
  | String c r =>
      if isdigit c
      then let '(ds, rest) := span_digits r in (String c ds, rest)
      else (EmptyString, s)
  end.

Definition is_exponent_char (c : ascii) : bool :=
  Ascii.eqb c "e" || Ascii.eqb c "E".

(** What the floating-point extraction reads from the input: an optional
    sign, digits, at most one decimal point, digits, and, once a digit has
    been read, an exponent character with an optional sign and digits.  It
    stops at the first character that does not fit. *)
Record float_scan : Type := mk_float_scan {
  negative : bool;
  int_digits : string;
  frac_digits : string;
  scientific : bool;
  exp_negative : bool;
  exp_digits : string;
  unread : string
}.

Definition scan_float (s1 : string) : float_scan :=
  let '(neg, s2) := scan_sign s1 in
  let '(ip, s3) := span_digits s2 in
  let '(fp, s4) :=
    match s3 with
    | String c r => if Ascii.eqb c "." then span_digits r else (EmptyString, s3)
    | EmptyString => (EmptyString, s3)
    end in
  let mantissa := negb (empty ip) || negb (empty fp) in
  match s4 with
  | String c r =>
      if is_exponent_char c && mantissa then
        let '(eneg, r1) := scan_sign r in
        let '(ed, r2) := span_digits r1 in
        mk_float_scan neg ip fp true eneg ed r2
      else mk_float_scan neg ip fp false false EmptyString s4
  | EmptyString => mk_float_scan neg ip fp false false EmptyString EmptyString
  end.

(** The binary floating-point number nearest to [(-1)^neg * m * 10^e10]
    (ties to even) in the format of precision [prec] and exponent bound
    [emax], as [strtof], [strtod] and [strtold] return it; an infinity when
    the number is too large for the format. *)
Definition round_decimal (prec emax : Z) (neg : bool) (m e10 : Z) : spec_float :=
  match m with
  | Zpos p =>
      if 0 <=? e10
      then binary_round prec emax neg (Z.to_pos (Zpos p * 10 ^ e10)) 0
      else SFdiv prec emax (S754_finite neg p 0)
                 (S754_finite false (Z.to_pos (10 ^ (- e10))) 0)
  | _ => S754_zero neg
  end.

Definition is_infinity (x : spec_float) : bool :=
  match x with
  | S754_infinity _ => true
  | _ => false
  end.

(** The largest finite number of the format, with the given sign. *)
Definition largest (prec emax : Z) (neg : bool) : spec_float :=
  S754_finite neg (Z.to_pos (2 ^ prec - 1)) (emax - prec).

(** [strm >> value] for a floating-point type.  The characters read must
    make a complete number (at least one digit, and digits in the exponent
    if there is one); a number too large for the type sets [failbit]. *)
Definition extract_floating (prec emax : Z) (strm : istream)
  : istream * option spec_float :=
  if good strm then
    match skipws (rdbuf strm) with
    | EmptyString => ({| rdbuf := EmptyString; eofbit := true; failbit := true |}, None)
    | String _ _ as s1 =>
        let sc := scan_float s1 in
        let e := empty (unread sc) in
        let mantissa :=
          negb (empty (int_digits sc)) || negb (empty (frac_digits sc)) in
        if mantissa && (negb (scientific sc) || negb (empty (exp_digits sc)))
        then
          let m := decimal 0 (int_digits sc ++ frac_digits sc) in
          let ex := if exp_negative sc then - decimal 0 (exp_digits sc)
                    else decimal 0 (exp_digits sc) in
          let e10 := ex - Z.of_nat (String.length (frac_digits sc)) in
          let x := round_decimal prec emax (negative sc) m e10 in
          if is_infinity x
          then ({| rdbuf := unread sc; eofbit := e; failbit := true |},
                Some (largest prec emax (negative sc)))
          else ({| rdbuf := unread sc; eofbit := e; failbit := false |}, Some x)
        else ({| rdbuf := unread sc; eofbit := e; failbit := true |},
              Some (S754_zero false))
    end
  else ({| rdbuf := rdbuf strm; eofbit := eofbit strm; failbit := true |}, None).

(** [strm >> value] for a value of type [T]. *)
Definition extract (T : numtype) (strm : istream) : istream * option numvalue :=
  match kind_of T with
  | Signed lo hi =>
      let '(ss, v) := extract_signed lo hi strm in (ss, option_map Integer v)
  | Unsigned max =>
      let '(ss, v) := extract_unsigned max strm in (ss, option_map Integer v)
  | Floating prec emax =>
      let '(ss, v) := extract_floating prec emax strm in (ss, option_map Real v)
  end.

(** The numeric branch of [convertFromString<T>]. *)
Definition convertFromString (T : numtype) (str : string) : outcome numvalue :=
  let '(ss, v) := extract T (stringstream str) in
  if fail ss || negb (eof ss)
  then Throw (invalid_argument
                ("Can't convert '" ++ str ++ "' into " ++ typeid_name T))
  else match v with
       | Some x => Ok x
       | None => Undefined
       end.

(** *** Numerals *)

(** A numeral as it is written: a sign, the digits before the point, the
    digits after the point if there is a point, and the exponent if there
    is one (upper or lower case letter, sign, digits). *)
Record numeral : Type := mk_numeral {
  n_sign : sign;
  n_int : string;
  n_frac : option string;
  n_exp : option (bool * sign * string)
}.




Definition frac_part (n : numeral) : string :=
  match n_frac n with
  | Some ds => ds
  | None => EmptyString
  end.





(** The value of a numeral is [(-1)^s * mantissa * 10^exponent10]. *)
Definition mantissa (n : numeral) : Z := decimal 0 (n_int n ++ frac_part n).






End Numeric.


(** * Properties *)

(** ** The tokenizer loop *)

Lemma parse_loop_unfold (d q : ascii) (ss : istream) (cell : string)
    (inQuotes : bool) (vals : list string) :
  CSVRow.parse_loop d q ss cell inQuotes vals =
  let '(ss', cell') := getline ss cell d in
  if to_bool ss' then
    match CSVRow.parse_cell q inQuotes cell' with
    | Ok (inQuotes', cell'') =>
        CSVRow.parse_loop d q ss' cell'' inQuotes' (vals ++ [cell''])
    | Throw e => Throw e
    | Undefined => Undefined
    end
  else Ok vals.
Proof.
  funelim (CSVRow.parse_loop d q ss cell inQuotes vals).
  all: rewrite Hg; cbv beta iota zeta;
    repeat match goal with
           | H : to_bool _ = _ |- _ => rewrite H
           | H : CSVRow.parse_cell _ _ _ = _ |- _ => rewrite H
           end; reflexivity.
Qed.

(** [getline_cells] is what [getline_scan] reads, cell after cell. *)
Lemma getline_cells_scan (d a : ascii) (s : string) :
  let '(c, r, e) := getline_scan (String a s) d in
  getline_cells d (String a s) = c :: getline_cells d r /\
  e && empty c = false /\
  (e = true -> r = EmptyString).
Proof.
  revert a. induction s as [|b s IH]; intros a.
  - simpl. destruct (Ascii.eqb a d); simpl; repeat split; auto; discriminate.
  - specialize (IH b). cbn [getline_scan getline_cells] in *.
    destruct (Ascii.eqb a d).
    + repeat split; auto; discriminate.
    + destruct (Ascii.eqb b d).
      * destruct IH as (IH1 & _ & _). repeat split; auto; discriminate.
      * destruct (getline_scan s d) as [[c0 r0] e0].
        destruct IH as (IH1 & _ & IH3). rewrite IH1.
        repeat split; auto. apply andb_false_r.
Qed.

Lemma parse_loop_cells (d q : ascii) (n : nat) :
  forall (ss : istream) (cell : string) (inQuotes : bool) (vals : list string),
    (String.length (rdbuf ss) <= n)%nat ->
    CSVRow.parse_loop d q ss cell inQuotes vals =
    if good ss then process_cells q inQuotes (getline_cells d (rdbuf ss)) vals
    else Ok vals.
Proof.
  induction n as [|n IH]; intros ss cell inQuotes vals Hlen;
    rewrite parse_loop_unfold; unfold getline;
    destruct (good ss) eqn:G; try reflexivity;
    destruct (rdbuf ss) as [|a s] eqn:B; try reflexivity.
  - simpl in Hlen. lia.
  - pose proof (getline_cells_scan d a s) as Hs.
    destruct (getline_scan (String a s) d) as [[c r] e] eqn:E.
    destruct Hs as (Hc & He & Hr). rewrite He, Hc.
    cbn [to_bool fail failbit negb process_cells].
    destruct (CSVRow.parse_cell q inQuotes c) as [[i c']| |]; try reflexivity.
    rewrite IH.
    + unfold good. cbn [eofbit failbit rdbuf negb andb].
      destruct e; cbn [negb andb]; [rewrite (Hr eq_refl)|]; reflexivity.
    + cbn [rdbuf].
      assert (String.length r < String.length (String a s))%nat.
      { apply (CSVRow.getline_shortens (stringstream (String a s))
                 {| rdbuf := r; eofbit := e; failbit := false |}
                 EmptyString c d); [|reflexivity].
        unfold getline, stringstream, good. cbn [eofbit failbit rdbuf negb andb].
        rewrite E, He. reflexivity. }
      simpl in *. lia.
Qed.

(** The constructor of a row, through the cells of the line. *)
Lemma new_cells (line : string) (d q : ascii) (n : Z) :
  CSVRow.new line d q n =
  vs <- process_cells q false (getline_cells d line) [] ;;
  Ok (CSVRow.mk n vs d q).
Proof.
  unfold CSVRow.new. destruct line as [|a s]; [reflexivity|].
  cbn [empty negb]. unfold CSVRow.parse. cbn [CSVRow.delimiter CSVRow.quote
    CSVRow.values CSVRow.LineNumber].
  rewrite (parse_loop_cells d q (String.length (String a s))); [|cbn; lia].
  reflexivity.
Qed.

(** *** Facts on [std::string] operations *)

Lemma append_empty_r_local (s : string) : s ++ EmptyString = s.
Proof. induction s as [|a s IH]; simpl; [reflexivity | now rewrite IH]. Qed.

Lemma substring_all (s : string) : String.substring 0 (String.length s) s = s.
Proof. induction s as [|a s IH]; simpl; [reflexivity | now rewrite IH]. Qed.

Lemma substring_drop_last (c : ascii) (s : string) :
  String.substring 0 (String.length s) (String c s) = drop_last c s.
Proof.
  revert c. induction s as [|a s IH]; intros c; simpl; [reflexivity|].
  f_equal. apply IH.
Qed.

Lemma drop_last_last (c : ascii) (s : string) :
  String c s = drop_last c s ++ String (last_char c s) EmptyString.
Proof.
  revert c. induction s as [|a s IH]; intros c; simpl; [reflexivity|].
  f_equal. apply IH.
Qed.

Lemma size_String (a : ascii) (s : string) : size (String a s) = size s + 1.
Proof. unfold size. cbn [String.length]. lia. Qed.

Lemma size_nonneg (s : string) : 0 <= size s.
Proof. unfold size. lia. Qed.

(** [substr(1)] drops the first character. *)
Lemma substr_tail (a : ascii) (s : string) :
  size (String a s) < size_t_modulus ->
  substr (String a s) 1 npos = Ok s.
Proof.
  intros H. unfold substr. rewrite size_String in *.
  pose proof (size_nonneg s).
  destruct (Z.ltb_spec (size s + 1) 1); [lia|].
  f_equal. unfold npos. rewrite Z.min_r by lia.
  replace (size s + 1 - 1) with (size s) by lia.
  unfold size. rewrite Nat2Z.id. change (Z.to_nat 1) with 1%nat.
  cbn [String.substring]. apply substring_all.
Qed.

(** [substr(0, size() - 1)] drops the last character. *)
Lemma substr_init (a : ascii) (s : string) :
  size (String a s) < size_t_modulus ->
  substr (String a s) 0 (size_t_sub (size (String a s)) 1) = Ok (drop_last a s).
Proof.
  intros H. unfold substr, size_t_sub. rewrite size_String in *.
  pose proof (size_nonneg s).
  destruct (Z.ltb_spec (size s + 1) 0); [lia|].
  f_equal. rewrite Z.mod_small by lia. rewrite Z.min_l by lia.
  replace (size s + 1 - 1) with (size s) by lia.
  unfold size. rewrite Nat2Z.id. change (Z.to_nat 0) with 0%nat.
  apply substring_drop_last.
Qed.

(** [substr(1, size() - 2)] drops the first and the last character; on a
    string of one character the count wraps around and nothing is left. *)
Lemma substr_middle (a : ascii) (s : string) :
  size (String a s) < size_t_modulus ->
  substr (String a s) 1 (size_t_sub (size (String a s)) 2) =
  Ok match s with
     | EmptyString => EmptyString
     | String b s' => drop_last b s'
     end.
Proof.
  intros H. unfold substr, size_t_sub. rewrite size_String in *.
  pose proof (size_nonneg s).
  destruct (Z.ltb_spec (size s + 1) 1); [lia|].
  f_equal. destruct s as [|b s'].
  - reflexivity.
  - rewrite size_String in *. pose proof (size_nonneg s').
    rewrite Z.mod_small by lia. rewrite Z.min_l by lia.
    replace (size s' + 1 + 1 - 2) with (size s') by lia.
    unfold size. rewrite Nat2Z.id. change (Z.to_nat 1) with 1%nat.
    cbn [String.substring]. apply substring_drop_last.
Qed.

(** *** The loop body *)

Lemma parse_cell_empty (q : ascii) (inQuotes : bool) :
  CSVRow.parse_cell q inQuotes EmptyString = Undefined.
Proof. destruct inQuotes; reflexivity. Qed.

Lemma substr_defined (s : string) (pos count : Z) :
  pos <= size s -> exists r, substr s pos count = Ok r.
Proof.
  intros H. unfold substr. destruct (Z.ltb_spec (size s) pos); [lia|]. eauto.
Qed.

Lemma parse_cell_defined (q : ascii) (inQuotes : bool) (a : ascii) (s : string) :
  exists i tok, CSVRow.parse_cell q inQuotes (String a s) = Ok (i, tok).
Proof.
  pose proof (size_nonneg s) as Hs.
  assert (H0 : 0 <= size (String a s)) by apply size_nonneg.
  assert (H1 : 1 <= size (String a s)) by (rewrite size_String; lia).
  unfold CSVRow.parse_cell.
  destruct inQuotes; cbn [negb front back bind].
  - destruct (Ascii.eqb (last_char a s) q); [|eauto].
    destruct (substr_defined (String a s) 0
                (size_t_sub (size (String a s)) 1) H0) as [r ->].
    cbn [bind]. eauto.
  - destruct (Ascii.eqb a q); cbn [bind]; [|eauto].
    destruct (Ascii.eqb (last_char a s) q); cbn [bind].
    + destruct (substr_defined (String a s) 1
                  (size_t_sub (size (String a s)) 2) H1) as [r ->].
      cbn [bind]. eauto.
    + destruct (substr_defined (String a s) 1 npos H1) as [r ->].
      cbn [bind]. eauto.
Qed.

Lemma parse_cell_stripped (q : ascii) (inQuotes i : bool) (a : ascii)
    (s tok : string) :
  size (String a s) < size_t_modulus ->
  CSVRow.parse_cell q inQuotes (String a s) = Ok (i, tok) ->
  stripped q (String a s) tok.
Proof.
  intros Hsz. unfold CSVRow.parse_cell, stripped.
  destruct inQuotes; cbn [negb front back bind].
  - destruct (Ascii.eqb_spec (last_char a s) q) as [El|Nl].
    + rewrite substr_init by assumption. cbn [bind]. intros E.
      injection E as _ <-. exists EmptyString, (String q EmptyString).
      split; [rewrite <- El; apply drop_last_last | auto].
    + intros E. injection E as _ <-. exists EmptyString, EmptyString.
      split; [|auto]. cbn. now rewrite append_empty_r_local.
  - destruct (Ascii.eqb_spec a q) as [Ea|Na]; cbn [bind].
    + destruct (Ascii.eqb_spec (last_char a s) q) as [El|Nl]; cbn [bind].
      * rewrite substr_middle by assumption. cbn [bind]. intros E.
        injection E as _ <-. destruct s as [|b s'].
        -- exists (String q EmptyString), EmptyString.
           split; [rewrite Ea; reflexivity | auto].
        -- exists (String q EmptyString), (String q EmptyString).
           split; [|auto]. cbn [last_char] in El. rewrite <- El at 2.
           rewrite Ea. cbn. f_equal. apply drop_last_last.
      * rewrite substr_tail by assumption.
        cbn [bind]. intros E. injection E as _ <-.
        exists (String q EmptyString), EmptyString.
        split; [|auto]. rewrite Ea. cbn. now rewrite append_empty_r_local.
    + intros E. injection E as _ <-. exists EmptyString, EmptyString.
      split; [|auto]. cbn. now rewrite append_empty_r_local.
Qed.

(** *** The cells of a line *)

Lemma getline_cells_nil (d : ascii) (s : string) :
  getline_cells d s = [] -> s = EmptyString.
Proof.
  destruct s as [|a s]; [reflexivity|]. cbn [getline_cells].
  destruct (Ascii.eqb a d); [discriminate|].
  destruct (getline_cells d s); discriminate.
Qed.

Lemma getline_cells_count (d : ascii) (s : string) :
  List.length (getline_cells d s) =
  (count_delim d s + if empty s || ends_with d s then 0 else 1)%nat.
Proof.
  induction s as [|a s IH]; [reflexivity|].
  cbn [getline_cells count_delim empty orb ends_with].
  destruct s as [|b s].
  - cbn. destruct (Ascii.eqb a d); reflexivity.
  - cbn [empty orb ends_with last_char] in *.
    destruct (Ascii.eqb a d).
    + cbn [List.length]. rewrite IH. lia.
    + destruct (getline_cells d (String b s)) as [|x xs] eqn:E.
      * apply getline_cells_nil in E. discriminate.
      * cbn [List.length] in *. rewrite IH. lia.
Qed.

Lemma getline_cells_size (d : ascii) (s : string) :
  Forall (fun c => size c <= size s) (getline_cells d s).
Proof.
  induction s as [|a s IH]; [constructor|].
  cbn [getline_cells]. rewrite size_String.
  assert (IH' : Forall (fun c => size c <= size s + 1) (getline_cells d s)).
  { eapply Forall_impl; [|exact IH]. cbv beta. intros; lia. }
  destruct (Ascii.eqb a d).
  - constructor; [|exact IH']. pose proof (size_nonneg s). unfold size at 1. cbn. lia.
  - destruct (getline_cells d s) as [|x xs].
    + constructor; [|constructor]. rewrite size_String.
      pose proof (size_nonneg s). unfold size at 1. cbn. lia.
    + inversion IH; subst. inversion IH'; subst.
      constructor; [rewrite size_String; lia | assumption].
Qed.

(** *** The loop over the cells *)

Lemma process_cells_undefined (q : ascii) (cells : list string) :
  forall (inQuotes : bool) (vals : list string),
    In EmptyString cells -> process_cells q inQuotes cells vals = Undefined.
Proof.
  induction cells as [|c cs IH]; intros inQuotes vals Hin; [destruct Hin|].
  cbn [process_cells]. destruct c as [|a s].
  - now rewrite parse_cell_empty.
  - destruct (parse_cell_defined q inQuotes a s) as (i & tok & ->).
    apply IH. destruct Hin as [Hin|Hin]; [discriminate | exact Hin].
Qed.

Lemma process_cells_defined (q : ascii) (cells : list string) :
  forall (inQuotes : bool) (vals : list string),
    forallb (fun c => negb (empty c)) cells = true ->
    exists toks, process_cells q inQuotes cells vals = Ok (vals ++ toks)%list /\
                 List.length toks = List.length cells.
Proof.
  induction cells as [|c cs IH]; intros inQuotes vals Hne.
  - exists []. cbn. now rewrite app_nil_r.
  - cbn [forallb] in Hne. apply andb_true_iff in Hne as [Hc Hcs].
    destruct c as [|a s]; [discriminate|]. cbn [process_cells].
    destruct (parse_cell_defined q inQuotes a s) as (i & tok & ->).
    destruct (IH i (vals ++ [tok])%list Hcs) as (toks & -> & Hl).
    exists (tok :: toks). rewrite <- app_assoc. cbn. now rewrite Hl.
Qed.

Lemma process_cells_defined_prefix (q : ascii) (cells : list string) :
  forall (inQuotes : bool) (vals out : list string),
    process_cells q inQuotes cells vals = Ok out ->
    exists rest, out = (vals ++ rest)%list.
Proof.
  induction cells as [|c cs IH]; intros inQuotes vals out.
  - cbn. intros E. injection E as <-. exists []. now rewrite app_nil_r.
  - cbn [process_cells].
    destruct (CSVRow.parse_cell q inQuotes c) as [[i tok]| |]; try discriminate.
    intros E. destruct (IH _ _ _ E) as (rest & ->).
    exists (tok :: rest). now rewrite <- app_assoc.
Qed.

Lemma process_cells_stripped (q : ascii) (cells : list string) :
  forall (inQuotes : bool) (vals toks : list string),
    Forall (fun c => size c < size_t_modulus) cells ->
    process_cells q inQuotes cells vals = Ok (vals ++ toks)%list ->
    Forall2 (stripped q) cells toks.
Proof.
  induction cells as [|c cs IH]; intros inQuotes vals toks Hsz.
  - cbn. intros E. injection E as E.
    rewrite <- (app_nil_r vals) in E at 1. apply app_inv_head in E.
    subst. constructor.
  - inversion Hsz as [|? ? Hc Hcs]; subst. cbn [process_cells].
    destruct c as [|a s]; [now rewrite parse_cell_empty|].
    destruct (CSVRow.parse_cell q inQuotes (String a s)) as [[i tok]| |] eqn:E;
      try discriminate.
    intros Hp.
    destruct (process_cells_defined_prefix q cs i (vals ++ [tok])%list _ Hp)
      as (rest & Hr).
    rewrite <- app_assoc in Hr. apply app_inv_head in Hr. subst toks.
    constructor.
    + eapply parse_cell_stripped; eassumption.
    + apply (IH i (vals ++ [tok])%list rest Hcs).
      rewrite Hp. now rewrite <- app_assoc.
Qed.

Lemma double_delimiter_cells (d : ascii) (pre post : string) :
  In EmptyString (tl (getline_cells d (pre ++ String d (String d post)))).
Proof.
  induction pre as [|a pre IH].
  - cbn [append getline_cells]. rewrite Ascii.eqb_refl. cbn. auto.
  - cbn [append getline_cells]. destruct (Ascii.eqb a d).
    + cbn [tl]. destruct (getline_cells d (pre ++ String d (String d post)));
        [destruct IH | right; exact IH].
    + destruct (getline_cells d (pre ++ String d (String d post)));
        [destruct IH | exact IH].
Qed.

(** ** Field Tokenizer *)

(** C3.  A line with an empty cell (one that starts with the delimiter, or
    has two delimiters in a row) makes [parse] apply [front()] or [back()]
    to the empty cell, whose behaviour is undefined: the cell is not
    emitted as an empty field, and no guard protects the access. *)
Theorem empty_cell_unguarded (d q : ascii) (n : Z) (pre post : string) :
  (forall inQuotes, CSVRow.parse_cell q inQuotes EmptyString = Undefined) /\
  CSVRow.new (String d post) d q n = Undefined /\
  CSVRow.new (pre ++ String d (String d post)) d q n = Undefined /\
  CSVRow.new "a,,b" "," "034" 1 = Undefined.
Proof.
  split; [apply parse_cell_empty|].
  split; [|split].
  - rewrite new_cells. rewrite process_cells_undefined; [reflexivity|].
    cbn [getline_cells]. rewrite Ascii.eqb_refl. left. reflexivity.
  - rewrite new_cells. rewrite process_cells_undefined; [reflexivity|].
    pose proof (double_delimiter_cells d pre post) as H.
    destruct (getline_cells d (pre ++ String d (String d post)));
      [destruct H | right; exact H].
  - reflexivity.
Qed.

(** C5, as stated, fails: after a final delimiter [getline] reads no
    further cell, so ["a,"] gives one token and not two. *)
Lemma trailing_delimiter_counterexample :
  CSVRow.new "a," "," "034" 1 = Ok (CSVRow.mk 1 ["a"] "," "034") /\
  List.length ["a"] <> naive_cell_count "," "a,".
Proof. split; [reflexivity | discriminate]. Qed.

(** C5, amended.  On a line without empty cell the tokenizer emits one token
    per cell read by [getline], in order, each the cell with at most one
    leading and one trailing quote character removed.  The number of tokens
    is the number of delimiters plus one for a non-empty line that does not
    end with the delimiter, and the number of delimiters for a line that
    ends with it: no empty cell is emitted after a final delimiter.  The
    bound on the size of the line holds of every [std::string]. *)
Theorem tokens_per_cell (line : string) (d q : ascii) (n : Z) :
  size line < size_t_modulus ->
  no_empty_cell d line = true ->
  exists row,
    CSVRow.new line d q n = Ok row /\
    Forall2 (stripped q) (getline_cells d line) (CSVRow.values row) /\
    List.length (CSVRow.values row) =
    (count_delim d line + if empty line || ends_with d line then 0 else 1)%nat.
Proof.
  intros Hsz Hne. rewrite new_cells.
  destruct (process_cells_defined q (getline_cells d line) false [] Hne)
    as (toks & Hp & Hl).
  rewrite Hp. cbn [bind app]. eexists. split; [reflexivity|].
  cbn [CSVRow.values]. split.
  - eapply (process_cells_stripped q _ false [] toks); [|exact Hp].
    eapply Forall_impl; [|apply getline_cells_size]. cbv beta. intros; lia.
  - rewrite Hl. apply getline_cells_count.
Qed.

Lemma tokens_per_cell_witness :
  exists row,
    CSVRow.new "ab,c," "," "034" 3 = Ok row /\
    Forall2 (stripped "034") (getline_cells "," "ab,c,") (CSVRow.values row) /\
    List.length (CSVRow.values row) = 2%nat.
Proof.
  apply (tokens_per_cell "ab,c," "," "034" 3); [reflexivity | reflexivity].
Defined.

(** C6, as stated, fails: an empty line gives no token at all, not one
    empty token, and decoding then indexes the empty token vector. *)
Lemma empty_line_counterexample :
  CSVRow.new EmptyString "," "034" 1 = Ok (CSVRow.mk 1 [] "," "034") /\
  CSVRow.values (CSVRow.mk 1 [] "," "034") <> [EmptyString] /\
  CSVRow.getValues (CSVRow.mk 1 [] "," "034") Tstring [] = Undefined /\
  CSVRow.getValues (CSVRow.mk 1 [] "," "034") (Tnum Tint) [Tnum Tint] = Undefined.
Proof. repeat split; try reflexivity. discriminate. Qed.

(** C6, amended.  For an empty line the constructor of the row skips the
    tokenizer and the row holds no token, whatever the delimiter, the
    quote character and the schema; no other line gives a row without
    token. *)
Theorem empty_line_no_token (d q : ascii) (n : Z) :
  CSVRow.new EmptyString d q n = Ok (CSVRow.mk n [] d q) /\
  forall line row,
    CSVRow.new line d q n = Ok row -> CSVRow.values row = [] ->
    line = EmptyString.
Proof.
  split; [reflexivity|]. intros line row. rewrite new_cells.
  destruct (process_cells q false (getline_cells d line) []) as [vs| |] eqn:E;
    cbn [bind]; try discriminate.
  intros H Hv. injection H as <-. cbn [CSVRow.values] in Hv. subst vs.
  destruct line as [|a s]; [reflexivity|]. exfalso.
  destruct (getline_cells d (String a s)) as [|c cs] eqn:C.
  - apply getline_cells_nil in C. discriminate.
  - cbn [process_cells] in E.
    destruct (CSVRow.parse_cell q false c) as [[i tok]| |]; try discriminate.
    apply process_cells_defined_prefix in E as (rest & E).
    destruct rest; discriminate.
Qed.

Lemma empty_line_no_token_witness :
  CSVRow.new EmptyString ";" "'" 7 = Ok (CSVRow.mk 7 [] ";" "'") /\
  EmptyString = EmptyString.
Proof.
  destruct (empty_line_no_token ";" "'" 7) as [H1 H2].
  split; [exact H1|].
  apply (H2 EmptyString (CSVRow.mk 7 [] ";" "'")); reflexivity.
Defined.

(** ** Value Converter and Row Decoder *)

(** [convertFromString] returns or throws: the value it returns has been
    stored by the extraction. *)
Lemma convertFromString_defined (T : ctype) (str : string) :
  convertFromString T str <> Undefined.
Proof.
  destruct T as [|t]; [discriminate|].
  unfold convertFromString, extract, stringstream, good.
  cbn [eofbit failbit rdbuf negb andb].
  destruct (skipws str) as [|a s1]; [discriminate|].
  destruct (scan_sign (String a s1)) as [negative s2].
  destruct (scan_digits s2 0 0) as [[v n] rest].
  destruct n; [discriminate|].
  destruct (_ <? int_min t); [discriminate|].
  destruct (int_max t <? _); [discriminate|].
  cbn [fail eof failbit eofbit orb]. destruct (negb (empty rest)); discriminate.
Qed.

Lemma convertToTuple_unfold (row : CSVRow.t) (Index : nat) (T : ctype)
    (Rest : list ctype) :
  CSVRow.convertToTuple row Index T Rest =
  v <- catch_all (s <- CSVRow.values_at row Index ;; convertFromString T s)
                 (CSVParseException "Error parsing value"
                                    (CSVRow.LineNumber row) (Z.of_nat Index)) ;;
  match Rest with
  | T' :: Rest' =>
      rest <- CSVRow.convertToTuple row (Index + 1) T' Rest' ;;
      Ok (v :: rest)
  | [] => Ok [v]
  end.
Proof. destruct Rest; reflexivity. Qed.

(** Whatever [convertToTuple] throws is a [CSVParseException] with the line
    number of the row. *)
Lemma convertToTuple_throws (row : CSVRow.t) (Rest : list ctype) :
  forall (T : ctype) (Index : nat) (e : exn),
    CSVRow.convertToTuple row Index T Rest = Throw e ->
    exists c, e = CSVParseException "Error parsing value" (CSVRow.LineNumber row) c.
Proof.
  induction Rest as [|T' Rest' IH]; intros T Index e; rewrite convertToTuple_unfold;
    destruct (s <- CSVRow.values_at row Index ;; convertFromString T s)
      as [v|e0|]; cbn [catch_all bind]; try discriminate.
  - intros E. injection E as <-. eauto.
  - destruct (CSVRow.convertToTuple row (Index + 1) T' Rest') as [r|e1|] eqn:E1;
      cbn [bind]; try discriminate.
    intros E. injection E as <-. eapply IH. exact E1.
  - intros E. injection E as <-. eauto.
Qed.

Lemma convertToTuple_first_failure (row : CSVRow.t) (i : nat) :
  forall (Rest : list ctype) (T : ctype) (k : nat),
    (i < List.length (T :: Rest))%nat ->
    (forall j, (j < i)%nat -> exists s v,
        nth_error (CSVRow.values row) (k + j) = Some s /\
        convertFromString (nth j (T :: Rest) Tstring) s = Ok v) ->
    (exists s, nth_error (CSVRow.values row) (k + i) = Some s /\
               forall v, convertFromString (nth i (T :: Rest) Tstring) s <> Ok v) ->
    CSVRow.convertToTuple row k T Rest =
    Throw (CSVParseException "Error parsing value"
                             (CSVRow.LineNumber row) (Z.of_nat (k + i))).
Proof.
  induction i as [|i IH]; intros Rest T k Hi Hbefore (s & Hs & Hfail);
    rewrite convertToTuple_unfold; unfold CSVRow.values_at.
  - rewrite Nat.add_0_r in *. rewrite Hs. cbn [bind nth] in *.
    destruct (convertFromString T s) as [v|e|] eqn:E.
    + now destruct (Hfail v).
    + reflexivity.
    + now destruct (convertFromString_defined T s).
  - destruct (Hbefore 0%nat ltac:(lia)) as (s0 & v0 & Hs0 & Hv0).
    rewrite Nat.add_0_r in Hs0. rewrite Hs0. cbn [bind nth] in *.
    rewrite Hv0. cbn [catch_all bind].
    destruct Rest as [|T' Rest']; [cbn in Hi; lia|].
    rewrite (IH Rest' T' (k + 1)%nat).
    + cbn [bind]. do 3 f_equal. lia.
    + cbn [List.length] in *. lia.
    + intros j Hj. destruct (Hbefore (S j) ltac:(lia)) as (sj & vj & Hsj & Hvj).
      exists sj, vj. split; [|exact Hvj].
      rewrite <- Hsj. f_equal. lia.
    + exists s. split; [|exact Hfail]. rewrite <- Hs. f_equal. lia.
Qed.

(** C4.  When the row has as many tokens as the schema has types and token
    [i] is the first whose conversion does not succeed, [getValues] throws
    one [CSVParseException] whose column is [i]; no tuple is returned, and
    the outcome is the same whatever stands after token [i], so the later
    tokens are not converted. *)
Theorem first_failing_column (row : CSVRow.t) (T : ctype) (Rest : list ctype)
    (i : nat) :
  List.length (CSVRow.values row) = List.length (T :: Rest) ->
  (i < List.length (T :: Rest))%nat ->
  (forall j, (j < i)%nat -> exists v,
      convertFromString (nth j (T :: Rest) Tstring)
                        (nth j (CSVRow.values row) EmptyString) = Ok v) ->
  (forall v, convertFromString (nth i (T :: Rest) Tstring)
                               (nth i (CSVRow.values row) EmptyString) <> Ok v) ->
  CSVRow.getValues row T Rest =
  Throw (CSVParseException "Error parsing value"
                           (CSVRow.LineNumber row) (Z.of_nat i)) /\
  forall later : list string,
    CSVRow.getValues
      (CSVRow.mk (CSVRow.LineNumber row)
                 (firstn (S i) (CSVRow.values row) ++ later)
                 (CSVRow.delimiter row) (CSVRow.quote row)) T Rest =
    Throw (CSVParseException "Error parsing value"
                             (CSVRow.LineNumber row) (Z.of_nat i)).
Proof.
  intros Hlen Hi Hbefore Hfail. unfold CSVRow.getValues. split.
  - apply (convertToTuple_first_failure row i Rest T 0%nat Hi).
    + intros j Hj. destruct (Hbefore j Hj) as (v & Hv).
      exists (nth j (CSVRow.values row) EmptyString), v. split; [|exact Hv].
      cbn [Nat.add]. apply nth_error_nth'. lia.
    + exists (nth i (CSVRow.values row) EmptyString). split; [|exact Hfail].
      cbn [Nat.add]. apply nth_error_nth'. lia.
  - intros later.
    set (row' := CSVRow.mk _ _ _ _).
    change (CSVRow.LineNumber row) with (CSVRow.LineNumber row').
    assert (Hkeep : forall j, (j <= i)%nat ->
              nth_error (CSVRow.values row') j =
              Some (nth j (CSVRow.values row) EmptyString)).
    { intros j Hj. subst row'. cbn [CSVRow.values].
      rewrite nth_error_app1 by (rewrite length_firstn; lia).
      rewrite nth_error_firstn.
      destruct (Nat.ltb_spec j (S i)); [|lia].
      apply nth_error_nth'. lia. }
    apply (convertToTuple_first_failure row' i Rest T 0%nat Hi).
    + intros j Hj. destruct (Hbefore j Hj) as (v & Hv).
      exists (nth j (CSVRow.values row) EmptyString), v. split; [|exact Hv].
      cbn [Nat.add]. apply Hkeep. lia.
    + exists (nth i (CSVRow.values row) EmptyString). split; [|exact Hfail].
      cbn [Nat.add]. apply Hkeep. lia.
Qed.

Lemma first_failing_column_witness :
  CSVRow.getValues (CSVRow.mk 4 ["Bob"; "thirty"; "5"] "," "034")
                   Tstring [Tnum Tint; Tnum Tint] =
  Throw (CSVParseException "Error parsing value" 4 1) /\
  forall later : list string,
    CSVRow.getValues (CSVRow.mk 4 (["Bob"; "thirty"] ++ later) "," "034")
                     Tstring [Tnum Tint; Tnum Tint] =
    Throw (CSVParseException "Error parsing value" 4 1).
Proof.
  apply (first_failing_column (CSVRow.mk 4 ["Bob"; "thirty"; "5"] "," "034")
           Tstring [Tnum Tint; Tnum Tint] 1%nat).
  - reflexivity.
  - cbn. lia.
  - intros j Hj. assert (j = 0%nat) as -> by lia. eexists. reflexivity.
  - intros v. cbn. discriminate.
Defined.

(** Tokens beyond the arity of the schema are never looked at. *)
Lemma convertToTuple_extra (row : CSVRow.t) (extra : list string)
    (Rest : list ctype) :
  forall (T : ctype) (k : nat),
    (k + List.length (T :: Rest) <= List.length (CSVRow.values row))%nat ->
    CSVRow.convertToTuple
      (CSVRow.mk (CSVRow.LineNumber row) (CSVRow.values row ++ extra)
                 (CSVRow.delimiter row) (CSVRow.quote row)) k T Rest =
    CSVRow.convertToTuple row k T Rest.
Proof.
  induction Rest as [|T' Rest' IH]; intros T k Hk;
    set (row' := CSVRow.mk _ _ _ _) in *;
    rewrite (convertToTuple_unfold row'), (convertToTuple_unfold row);
    unfold CSVRow.values_at;
    assert (E : nth_error (CSVRow.values row') k =
                nth_error (CSVRow.values row) k)
      by (apply nth_error_app1; cbn [List.length] in Hk; lia);
    rewrite E; change (CSVRow.LineNumber row') with (CSVRow.LineNumber row);
    [reflexivity|].
  rewrite IH by (cbn [List.length] in *; lia). reflexivity.
Qed.

(** With fewer tokens than types, and every token present convertible,
    the conversion reaches the missing token and indexes past the end. *)
Lemma convertToTuple_missing (row : CSVRow.t) (Rest : list ctype) :
  forall (T : ctype) (k : nat),
    (k <= List.length (CSVRow.values row))%nat ->
    (List.length (CSVRow.values row) < k + List.length (T :: Rest))%nat ->
    (forall j s, nth_error (CSVRow.values row) (k + j) = Some s ->
                 exists v, convertFromString (nth j (T :: Rest) Tstring) s = Ok v) ->
    CSVRow.convertToTuple row k T Rest = Undefined.
Proof.
  induction Rest as [|T' Rest' IH]; intros T k Hk Hlen Hconv;
    rewrite convertToTuple_unfold; unfold CSVRow.values_at;
    destruct (nth_error (CSVRow.values row) k) as [s|] eqn:E;
    try reflexivity.
  - assert (k < List.length (CSVRow.values row))%nat
      by (apply nth_error_Some; rewrite E; discriminate).
    cbn [List.length] in Hlen. lia.
  - destruct (Hconv 0%nat s) as (v & Hv); [now rewrite Nat.add_0_r|].
    cbn [nth bind] in *. rewrite Hv. cbn [catch_all bind].
    rewrite IH; [reflexivity | | |].
    + assert (k < List.length (CSVRow.values row))%nat
        by (apply nth_error_Some; rewrite E; discriminate).
      lia.
    + cbn [List.length] in *. lia.
    + intros j sj Hj. apply (Hconv (S j) sj).
      rewrite <- Hj. f_equal. lia.
Qed.

(** C2.  [convertToTuple] never compares the number of tokens with the
    arity of the schema.  With fewer tokens than types it indexes the token
    vector past its end, which is undefined; with more tokens than types it
    returns a tuple of the first ones and drops the others.  Neither case
    throws a [CSVParseException]. *)
Theorem field_count_unchecked :
  CSVRow.getValues (CSVRow.mk 1 ["1"] "," "034") (Tnum Tint) [Tnum Tint]
  = Undefined /\
  CSVRow.getValues (CSVRow.mk 1 ["1"; "2"; "3"] "," "034") (Tnum Tint) [Tnum Tint]
  = Ok [Vnum Tint 1; Vnum Tint 2] /\
  forall n d q T Rest, CSVRow.getValues (CSVRow.mk n [] d q) T Rest = Undefined.
Proof.
  split; [reflexivity|]. split; [reflexivity|].
  intros n d q T Rest. unfold CSVRow.getValues.
  rewrite convertToTuple_unfold. reflexivity.
Qed.

(** ** Row Stream *)

Lemma new_characters (line : string) (d q : ascii) (n : Z) (row : CSVRow.t) :
  CSVRow.new line d q n = Ok row ->
  CSVRow.delimiter row = d /\ CSVRow.quote row = q.
Proof.
  rewrite new_cells.
  destruct (process_cells q false (getline_cells d line) []); cbn [bind];
    try discriminate.
  intros E. injection E as <-. split; reflexivity.
Qed.

(** Every row that a pull reads carries the comma and the double quote,
    whatever the iterator was constructed with. *)
Lemma advance_row_characters (file file' : istream)
    (it it' : CSVParserIterator.t) :
  CSVParserIterator.advance file it = Ok (file', it') ->
  CSVParserIterator.end_ it' = false ->
  CSVRow.delimiter (CSVParserIterator.currentRow it') = ","%char /\
  CSVRow.quote (CSVParserIterator.currentRow it') = "034"%char.
Proof.
  unfold CSVParserIterator.advance.
  destruct (getline file EmptyString "010") as [f1 line].
  destruct (to_bool f1).
  - destruct (CSVParserIterator.lineNumber it =? CSVParserIterator.INT_MAX);
      [discriminate|].
    destruct (CSVRow.new line "," "034" (CSVParserIterator.lineNumber it + 1))
      as [row| |] eqn:E; cbn [bind]; try discriminate.
    intros H _. injection H as <- <-. cbn [CSVParserIterator.currentRow].
    eapply new_characters. exact E.
  - intros H He. injection H as <- <-.
    cbn [CSVParserIterator.end_] in He. discriminate.
Qed.

(** C1.  [advance] builds each row with a fixed comma and a fixed
    double quote, not with the delimiter and quote given to the parser: a stream
    built with delimiter [';'] leaves the line ["a;b"] in one token, where
    tokenizing with [';'] gives two. *)
Theorem advance_fixed_characters :
  (r <- open_stream (ifstream "a;b") 0 ";" "034" ;;
   Ok (CSVRow.values (CSVParserIterator.currentRow (snd r)))) = Ok ["a;b"] /\
  (row <- CSVRow.new "a;b" ";" "034" 1 ;; Ok (CSVRow.values row))
  = Ok ["a"; "b"].
Proof. split; reflexivity. Qed.

Lemma exhausted_next (file : istream) :
  exhausted file = true ->
  exhausted (fst (getline file EmptyString "010")) = true.
Proof.
  unfold exhausted, to_bool, fail. intros H.
  apply negb_true_iff in H. apply negb_false_iff in H.
  unfold getline at 1.
  assert (G : good (fst (getline file EmptyString "010")) = false).
  { unfold good. rewrite H. apply andb_false_r. }
  rewrite G. reflexivity.
Qed.

Lemma advance_exhausted (file : istream) (it : CSVParserIterator.t) :
  exhausted file = true ->
  CSVParserIterator.advance file it =
  Ok (fst (getline file EmptyString "010"),
      CSVParserIterator.mk (CSVParserIterator.currentRow it) true
                           (CSVParserIterator.lineNumber it)).
Proof.
  unfold exhausted, CSVParserIterator.advance. intros H.
  destruct (getline file EmptyString "010") as [file' line].
  cbn [fst] in *. apply negb_true_iff in H. rewrite H. reflexivity.
Qed.

Lemma end_iterator (file : istream) (p : CSVParser.t) :
  CSVParser.end_ file p =
  Ok (file, CSVParserIterator.mk
              (CSVRow.mk 0 [] (CSVParser.delimiter p) (CSVParser.quote p))
              true 0).
Proof. reflexivity. Qed.

(** C7.  Once the line source has no further line, every pull returns
    normally, whatever their number: the iterator is at its end, compares
    equal to [end()], keeps its row and its line count, and the source stays
    exhausted.  No pull throws. *)
Theorem exhausted_stream_stays_ended (n : nat) :
  forall (file : istream) (it : CSVParserIterator.t),
    exhausted file = true ->
    exists file' it',
      pulls (S n) file it = Ok (file', it') /\
      CSVParserIterator.end_ it' = true /\
      CSVParserIterator.currentRow it' = CSVParserIterator.currentRow it /\
      CSVParserIterator.lineNumber it' = CSVParserIterator.lineNumber it /\
      exhausted file' = true /\
      forall p : CSVParser.t,
      exists e, CSVParser.end_ file' p = Ok (file', e) /\
                CSVParserIterator.neq it' e = false.
Proof.
  induction n as [|n IH]; intros file it Hex.
  - cbn [pulls]. unfold CSVParserIterator.incr.
    rewrite (advance_exhausted file it Hex). cbn [bind fst snd pulls].
    do 2 eexists. split; [reflexivity|].
    cbn [CSVParserIterator.end_ CSVParserIterator.currentRow
         CSVParserIterator.lineNumber].
    repeat split. { now apply exhausted_next. }
    intros p. eexists. split; [apply end_iterator | reflexivity].
  - change (pulls (S (S n)) file it)
      with (r <- CSVParserIterator.incr file it ;; pulls (S n) (fst r) (snd r)).
    unfold CSVParserIterator.incr.
    rewrite (advance_exhausted file it Hex). cbn [bind fst snd].
    destruct (IH (fst (getline file EmptyString "010"))
                 (CSVParserIterator.mk (CSVParserIterator.currentRow it) true
                                       (CSVParserIterator.lineNumber it))
                 (exhausted_next file Hex))
      as (file' & it' & Hp & He & Hr & Hl & Hx & Hend).
    exists file', it'. split; [exact Hp|]. repeat split; assumption.
Qed.

Lemma exhausted_stream_stays_ended_witness :
  exists file' it',
    pulls 3 (ifstream EmptyString) (CSVParserIterator.mk (CSVRow.mk 1 ["7"] "," "034") false 1)
    = Ok (file', it') /\
    CSVParserIterator.end_ it' = true /\
    CSVParserIterator.currentRow it' = CSVRow.mk 1 ["7"] "," "034" /\
    CSVParserIterator.lineNumber it' = 1 /\
    exhausted file' = true /\
    forall p : CSVParser.t,
    exists e, CSVParser.end_ file' p = Ok (file', e) /\
              CSVParserIterator.neq it' e = false.
Proof.
  apply (exhausted_stream_stays_ended 2 (ifstream EmptyString)
           (CSVParserIterator.mk (CSVRow.mk 1 ["7"] "," "034") false 1)).
  reflexivity.
Defined.

(** *** Line numbers *)

Lemma new_LineNumber (line : string) (d q : ascii) (n : Z) (row : CSVRow.t) :
  CSVRow.new line d q n = Ok row -> CSVRow.LineNumber row = n.
Proof.
  rewrite new_cells.
  destruct (process_cells q false (getline_cells d line) []); cbn [bind];
    try discriminate.
  intros E. injection E as <-. reflexivity.
Qed.

Lemma getValues_no_token (row : CSVRow.t) (T : ctype) (Rest : list ctype) :
  CSVRow.values row = [] -> CSVRow.getValues row T Rest = Undefined.
Proof.
  intros H. unfold CSVRow.getValues. rewrite convertToTuple_unfold.
  unfold CSVRow.values_at. rewrite H. reflexivity.
Qed.

(** A pull that leaves the iterator before its end has read one line and
    numbered the new row with the incremented count. *)
Lemma advance_line (file file' : istream) (it it' : CSVParserIterator.t) :
  CSVParserIterator.advance file it = Ok (file', it') ->
  CSVParserIterator.end_ it' = false ->
  CSVParserIterator.end_ it = false /\
  CSVParserIterator.lineNumber it' = CSVParserIterator.lineNumber it + 1 /\
  CSVRow.LineNumber (CSVParserIterator.currentRow it') =
  CSVParserIterator.lineNumber it + 1.
Proof.
  unfold CSVParserIterator.advance.
  destruct (getline file EmptyString "010") as [f1 line].
  destruct (to_bool f1).
  - destruct (CSVParserIterator.lineNumber it =? CSVParserIterator.INT_MAX);
      [discriminate|].
    destruct (CSVRow.new line "," "034" (CSVParserIterator.lineNumber it + 1))
      as [row| |] eqn:E; cbn [bind]; try discriminate.
    intros H He. injection H as <- <-.
    cbn [CSVParserIterator.end_ CSVParserIterator.lineNumber
         CSVParserIterator.currentRow] in *.
    repeat split; [assumption|]. eapply new_LineNumber. exact E.
  - intros H He. injection H as <- <-.
    cbn [CSVParserIterator.end_] in He. discriminate.
Qed.

Lemma pulls_line (m : nat) :
  forall (file file' : istream) (it it' : CSVParserIterator.t),
    pulls m file it = Ok (file', it') ->
    CSVParserIterator.end_ it' = false ->
    CSVParserIterator.end_ it = false /\
    CSVParserIterator.lineNumber it' =
    CSVParserIterator.lineNumber it + Z.of_nat m /\
    (CSVRow.LineNumber (CSVParserIterator.currentRow it) =
     CSVParserIterator.lineNumber it ->
     CSVRow.LineNumber (CSVParserIterator.currentRow it') =
     CSVParserIterator.lineNumber it').
Proof.
  induction m as [|m IH]; intros file file' it it'.
  - cbn [pulls]. intros H He. injection H as <- <-.
    repeat split; [assumption | cbn; lia | auto].
  - cbn [pulls]. unfold CSVParserIterator.incr.
    destruct (CSVParserIterator.advance file it) as [[f1 it1]| |] eqn:A;
      cbn [bind fst snd]; try discriminate.
    intros H He. destruct (IH _ _ _ _ H He) as (He1 & Hl & Hrow).
    destruct (advance_line _ _ _ _ A He1) as (He0 & Hl1 & Hr1).
    repeat split; [assumption | lia |].
    intros _. apply Hrow. lia.
Qed.

(** The iterator that [begin()] returns is either on a first row numbered
    1, whatever the number of skipped lines, or at its end with the empty
    row it was constructed with. *)
Lemma open_stream_line (file f : istream) (k : nat) (d q : ascii)
    (it : CSVParserIterator.t) :
  open_stream file k d q = Ok (f, it) ->
  (CSVParserIterator.end_ it = false /\
   CSVParserIterator.lineNumber it = 1 /\
   CSVRow.LineNumber (CSVParserIterator.currentRow it) = 1) \/
  (CSVParserIterator.end_ it = true /\
   CSVRow.values (CSVParserIterator.currentRow it) = []).
Proof.
  unfold open_stream, CSVParser.new, CSVParser.begin, CSVParserIterator.new.
  cbn [CSVParser.delimiter CSVParser.quote CSVRow.new empty negb bind].
  unfold CSVParserIterator.advance.
  destruct (getline (CSVParser.skip file k) EmptyString "010") as [f1 line].
  cbn [CSVParserIterator.lineNumber CSVParserIterator.end_
       CSVParserIterator.currentRow].
  destruct (to_bool f1).
  - change (0 =? CSVParserIterator.INT_MAX) with false. cbv iota.
    change (0 + 1) with 1.
    destruct (CSVRow.new line "," "034" 1) as [row| |] eqn:E; cbn [bind];
      try discriminate.
    intros H. injection H as <- <-. left.
    cbn [CSVParserIterator.end_ CSVParserIterator.lineNumber
         CSVParserIterator.currentRow].
    repeat split. eapply new_LineNumber. exact E.
  - intros H. injection H as <- <-. right. split; reflexivity.
Qed.

(** C8.  With [skipLines = 1] over the lines [header] and [1,2]: the
    constructor consumes the line [header] with a bare [getline], the first
    row decodes to (1, 2) and carries line number 1; and whatever stands
    in the place of [1,2], an exception thrown for that row reports line 1. *)
Theorem skip_header_scenario :
  fst (CSVParser.new (ifstream ("header" ++ nl ++ "1,2")) 1 "," "034")
  = stringstream "1,2" /\
  (exists file it,
     open_stream (ifstream ("header" ++ nl ++ "1,2")) 1 "," "034" = Ok (file, it) /\
     CSVParserIterator.end_ it = false /\
     CSVParserIterator.deref it (Tnum Tint) [Tnum Tint]
     = Ok [Vnum Tint 1; Vnum Tint 2] /\
     CSVRow.LineNumber (CSVParserIterator.currentRow it) = 1) /\
  forall (row2 : string) (T : ctype) (Rest : list ctype) (file : istream)
         (it : CSVParserIterator.t) (e : exn),
    open_stream (ifstream ("header" ++ nl ++ row2)) 1 "," "034" = Ok (file, it) ->
    CSVParserIterator.deref it T Rest = Throw e ->
    exists c, e = CSVParseException "Error parsing value" 1 c.
Proof.
  split; [reflexivity|]. split.
  - do 2 eexists. split; [reflexivity|]. repeat split.
  - intros row2 T Rest file it e Ho Hd.
    unfold CSVParserIterator.deref in Hd.
    destruct (open_stream_line _ _ _ _ _ _ Ho) as [(_ & _ & Hl)|(_ & Hv)].
    + rewrite <- Hl. eapply convertToTuple_throws. exact Hd.
    + rewrite (getValues_no_token _ T Rest Hv) in Hd. discriminate.
Qed.

Lemma skip_header_scenario_witness :
  exists c, CSVParseException "Error parsing value" 1 0
            = CSVParseException "Error parsing value" 1 c.
Proof.
  destruct skip_header_scenario as (_ & _ & H).
  apply (H "x,2" (Tnum Tint) [Tnum Tint]
           {| rdbuf := EmptyString; eofbit := true; failbit := false |}
           (CSVParserIterator.mk (CSVRow.mk 1 ["x"; "2"] "," "034") false 1));
    reflexivity.
Defined.

(** C9, as stated, fails: with one skipped line an error on the first
    decoded row reports line 1, not line 2. *)
Lemma skipped_lines_counterexample :
  (r <- open_stream (ifstream ("header" ++ nl ++ "x,2")) 1 "," "034" ;;
   CSVParserIterator.deref (snd r) (Tnum Tint) [Tnum Tint])
  = Throw (CSVParseException "Error parsing value" 1 0) /\
  1 <> Z.of_nat 1 + 1.
Proof. split; [reflexivity | discriminate]. Qed.

(** C9, amended.  The line number of an exception is 1-based and counts the
    lines the iterator has read as rows: the row reached by [m] pulls after
    [begin()] reports line [m + 1], whatever the number [k] of lines the
    constructor skipped. *)
Theorem error_line_counts_rows (file f0 f : istream) (k m : nat) (d q : ascii)
    (it0 it : CSVParserIterator.t) (T : ctype) (Rest : list ctype) (e : exn) :
  open_stream file k d q = Ok (f0, it0) ->
  pulls m f0 it0 = Ok (f, it) ->
  CSVParserIterator.end_ it = false ->
  CSVParserIterator.deref it T Rest = Throw e ->
  exists c, e = CSVParseException "Error parsing value" (Z.of_nat m + 1) c.
Proof.
  intros Ho Hp He Hd.
  destruct (pulls_line _ _ _ _ _ Hp He) as (He0 & Hl & Hrow).
  destruct (open_stream_line _ _ _ _ _ _ Ho) as [(_ & Hl0 & Hr0)|(He0' & _)];
    [|congruence].
  replace (Z.of_nat m + 1) with (CSVRow.LineNumber (CSVParserIterator.currentRow it))
    by (rewrite Hrow; lia).
  eapply convertToTuple_throws. exact Hd.
Qed.

Lemma error_line_counts_rows_witness :
  exists c, CSVParseException "Error parsing value" 2 1
            = CSVParseException "Error parsing value" (Z.of_nat 1 + 1) c.
Proof.
  apply (error_line_counts_rows
           (ifstream ("h1" ++ nl ++ "h2" ++ nl ++ "1,2" ++ nl ++ "3,x"))
           (stringstream "3,x")
           {| rdbuf := EmptyString; eofbit := true; failbit := false |}
           2 1 "," "034"
           (CSVParserIterator.mk (CSVRow.mk 1 ["1"; "2"] "," "034") false 1)
           (CSVParserIterator.mk (CSVRow.mk 2 ["3"; "x"] "," "034") false 2)
           (Tnum Tint) [Tnum Tint]);
    reflexivity.
Defined.

(** ** Numerals *)

Lemma isdigit_not_space (c : ascii) : isdigit c = true -> isspace c = false.
Proof.
  unfold isdigit, isspace. cbv zeta. intros H.
  apply andb_true_iff in H as [H1 H2].
  apply N.leb_le in H1. apply N.leb_le in H2.
  apply orb_false_iff. split.
  - apply N.eqb_neq. lia.
  - apply andb_false_iff. right. apply N.leb_gt. lia.
Qed.

Lemma scan_sign_spec (c : ascii) (r : string) :
  scan_sign (String c r) =
  if Ascii.eqb c "-" then (true, r)
  else if Ascii.eqb c "+" then (false, r)
  else (false, String c r).
Proof.
  destruct c as [b0 b1 b2 b3 b4 b5 b6 b7].
  destruct b0, b1, b2, b3, b4, b5, b6, b7; reflexivity.
Qed.

Lemma scan_sign_digit (c : ascii) (r : string) :
  isdigit c = true -> scan_sign (String c r) = (false, String c r).
Proof.
  intros H. rewrite scan_sign_spec.
  destruct (Ascii.eqb_spec c "-") as [->|_]; [discriminate|].
  destruct (Ascii.eqb_spec c "+") as [->|_]; [discriminate|].
  reflexivity.
Qed.

Lemma skipws_app (ws s : string) :
  string_forall isspace ws = true -> skipws (ws ++ s) = skipws s.
Proof.
  induction ws as [|c ws IH]; cbn [string_forall append skipws];
    [reflexivity|].
  intros H. apply andb_true_iff in H as [Hc Hws]. rewrite Hc. auto.
Qed.

Lemma scan_digits_app (ds rest : string) :
  forall (acc : Z) (n : nat),
    string_forall isdigit ds = true ->
    no_leading_digit rest = true ->
    scan_digits (ds ++ rest) acc n =
    (decimal acc ds, (n + String.length ds)%nat, rest).
Proof.
  induction ds as [|c ds IH]; intros acc n Hd Hr.
  - cbn [append decimal String.length]. rewrite Nat.add_0_r.
    destruct rest as [|c r]; [reflexivity|].
    cbn [no_leading_digit] in Hr. apply negb_true_iff in Hr.
    cbn [scan_digits]. now rewrite Hr.
  - cbn [string_forall] in Hd. apply andb_true_iff in Hd as [Hc Hds].
    cbn [append scan_digits decimal String.length]. rewrite Hc.
    rewrite IH by assumption. do 2 f_equal. lia.
Qed.

(** The extraction on a field made of white space, a numeral and a rest
    that does not continue the numeral. *)
Lemma extract_numeral (t : inttype) (ws : string) (sg : sign) (ds rest : string) :
  string_forall isspace ws = true ->
  string_forall isdigit ds = true ->
  ds <> EmptyString ->
  no_leading_digit rest = true ->
  extract t (stringstream (ws ++ sign_string sg ++ ds ++ rest)) =
  let sv := numeral_value sg ds in
  let e := empty rest in
  if sv <? int_min t
  then ({| rdbuf := rest; eofbit := e; failbit := true |}, Some (int_min t))
  else if int_max t <? sv
  then ({| rdbuf := rest; eofbit := e; failbit := true |}, Some (int_max t))
  else ({| rdbuf := rest; eofbit := e; failbit := false |}, Some sv).
Proof.
  intros Hws Hds Hne Hrest.
  destruct ds as [|c ds]; [contradiction|]. clear Hne.
  pose proof Hds as Hds'. cbn [string_forall] in Hds'.
  apply andb_true_iff in Hds' as [Hc _].
  unfold extract, stringstream, good. cbn [eofbit failbit rdbuf negb andb].
  rewrite skipws_app by assumption.
  assert (Hsk : skipws (sign_string sg ++ String c ds ++ rest) =
                sign_string sg ++ String c ds ++ rest).
  { destruct sg; cbn [sign_string append skipws]; try reflexivity.
    now rewrite (isdigit_not_space c Hc). }
  rewrite Hsk.
  assert (Hsg : scan_sign (sign_string sg ++ String c ds ++ rest) =
                (match sg with Minus => true | _ => false end,
                 String c ds ++ rest)).
  { destruct sg; cbn [sign_string append]; try reflexivity.
    now apply scan_sign_digit. }
  destruct (sign_string sg ++ String c ds ++ rest) as [|a s1] eqn:E.
  { destruct sg; discriminate. }
  rewrite Hsg. rewrite (scan_digits_app (String c ds) rest 0 0 Hds Hrest).
  cbn [String.length Nat.add]. unfold numeral_value. cbv zeta.
  destruct sg; reflexivity.
Qed.

(** A numeral too large for [int] is not converted. *)
Lemma numeral_overflow_counterexample :
  convertFromString (Tnum Tint) "99999999999" =
  Throw (invalid_argument "Can't convert '99999999999' into i").
Proof. reflexivity. Qed.

(** The signed integer types of the schema: a field made of optional
    leading white space and a numeral (optional sign, decimal digits) that
    extends to the end of the field converts to the value of the numeral
    when that value fits the type and fails when it does not; a field with
    any character after the numeral, white space included, fails. *)
Theorem numeral_conversion (t : inttype) (ws : string) (sg : sign)
    (ds rest : string) :
  string_forall isspace ws = true ->
  string_forall isdigit ds = true ->
  ds <> EmptyString ->
  (int_min t <= numeral_value sg ds <= int_max t ->
   convertFromString (Tnum t) (ws ++ sign_string sg ++ ds)
   = Ok (Vnum t (numeral_value sg ds))) /\
  (~ int_min t <= numeral_value sg ds <= int_max t ->
   exists e, convertFromString (Tnum t) (ws ++ sign_string sg ++ ds) = Throw e) /\
  (rest <> EmptyString -> no_leading_digit rest = true ->
   exists e,
     convertFromString (Tnum t) (ws ++ sign_string sg ++ ds ++ rest) = Throw e).
Proof.
  intros Hws Hds Hne.
  pose proof (extract_numeral t ws sg ds EmptyString Hws Hds Hne eq_refl) as H0.
  rewrite append_empty_r_local in H0. cbv zeta in H0.
  split; [|split].
  - intros [Hlo Hhi]. unfold convertFromString. rewrite H0.
    destruct (Z.ltb_spec (numeral_value sg ds) (int_min t)); [lia|].
    destruct (Z.ltb_spec (int_max t) (numeral_value sg ds)); [lia|].
    reflexivity.
  - intros Hout. unfold convertFromString. rewrite H0.
    destruct (Z.ltb_spec (numeral_value sg ds) (int_min t)); [eexists; reflexivity|].
    destruct (Z.ltb_spec (int_max t) (numeral_value sg ds)); [eexists; reflexivity|].
    lia.
  - intros Hr Hnd. unfold convertFromString.
    rewrite (extract_numeral t ws sg ds rest Hws Hds Hne Hnd). cbv zeta.
    destruct rest as [|c r]; [contradiction|]. cbn [empty].
    destruct (_ <? int_min t); [eexists; reflexivity|].
    destruct (int_max t <? _); eexists; reflexivity.
Qed.

Lemma numeral_conversion_witness :
  convertFromString (Tnum Tint) ("  " ++ "-" ++ "42") = Ok (Vnum Tint (-42)) /\
  (exists e, convertFromString (Tnum Tshort) ("  " ++ "-" ++ "70000") = Throw e) /\
  (exists e, convertFromString (Tnum Tint) ("  " ++ "-" ++ "42" ++ " ") = Throw e).
Proof.
  split; [|split].
  - apply (numeral_conversion Tint "  " Minus "42" " ");
      [reflexivity | reflexivity | discriminate | cbn; lia].
  - apply (numeral_conversion Tshort "  " Minus "70000" " ");
      [reflexivity | reflexivity | discriminate | cbn; lia].
  - apply (numeral_conversion Tint "  " Minus "42" " ");
      [reflexivity | reflexivity | discriminate | discriminate | reflexivity].
Defined.

(** * Further properties *)

(** ** Tokenizer: what a line is split into *)

Lemma getline_cells_field (d : ascii) (f r : string) :
  free_of d f = true ->
  getline_cells d (f ++ String d r) = f :: getline_cells d r.
Proof.
  unfold free_of. induction f as [|a f IH]; cbn [append getline_cells string_forall].
  - intros _. now rewrite Ascii.eqb_refl.
  - intros H. apply andb_true_iff in H as [Ha Hf].
    apply negb_true_iff in Ha. rewrite Ha. now rewrite IH.
Qed.

Lemma getline_cells_single (d : ascii) (f : string) :
  free_of d f = true -> f <> EmptyString -> getline_cells d f = [f].
Proof.
  unfold free_of. induction f as [|a f IH]; [contradiction|].
  cbn [getline_cells string_forall]. intros H _.
  apply andb_true_iff in H as [Ha Hf]. apply negb_true_iff in Ha. rewrite Ha.
  destruct f as [|b f]; [reflexivity|].
  rewrite IH by (assumption || discriminate). reflexivity.
Qed.

Lemma getline_cells_join (d : ascii) (fields : list string) :
  Forall (fun f => free_of d f = true /\ f <> EmptyString) fields ->
  getline_cells d (join d fields) = fields.
Proof.
  induction fields as [|f fs IH]; [reflexivity|].
  intros H. inversion H as [|? ? [Hf Hne] Hfs]; subst.
  cbn [join]. destruct fs as [|g gs].
  - now apply getline_cells_single.
  - rewrite getline_cells_field by assumption. now rewrite IH.
Qed.

Lemma last_char_app (c q : ascii) (s : string) :
  last_char c (s ++ String q EmptyString) = q.
Proof. revert c. induction s as [|a s IH]; intros c; cbn; auto. Qed.

Lemma drop_last_app (c q : ascii) (s : string) :
  drop_last c (s ++ String q EmptyString) = String c s.
Proof.
  revert c. induction s as [|a s IH]; intros c; cbn; [reflexivity|].
  now rewrite IH.
Qed.

(** A cell that does not start with the quote character is kept. *)
Lemma parse_cell_plain (q : ascii) (cell : string) :
  cell <> EmptyString -> starts_with q cell = false ->
  CSVRow.parse_cell q false cell = Ok (false, cell).
Proof.
  destruct cell as [|a s]; [contradiction|]. cbn [starts_with]. intros _ H.
  unfold CSVRow.parse_cell. cbn [negb front bind]. now rewrite H.
Qed.

(** A cell between two quote characters loses both. *)
Lemma parse_cell_quoted (q : ascii) (f : string) :
  size (quoted q f) < size_t_modulus ->
  CSVRow.parse_cell q false (quoted q f) = Ok (false, f).
Proof.
  intros Hsz. unfold quoted in *. unfold CSVRow.parse_cell.
  cbn [negb front back bind]. rewrite Ascii.eqb_refl. cbn [bind].
  rewrite last_char_app, Ascii.eqb_refl. cbn [bind].
  rewrite substr_middle by assumption. cbn [bind].
  destruct f as [|b f]; [reflexivity|].
  cbn [append]. now rewrite drop_last_app.
Qed.

(** A cell that starts with the quote character and does not end with it
    loses the quote and opens a quoted span. *)
Lemma parse_cell_open (q : ascii) (a : string) :
  size (String q a) < size_t_modulus ->
  a <> EmptyString -> ends_with q a = false ->
  CSVRow.parse_cell q false (String q a) = Ok (true, a).
Proof.
  intros Hsz Hne He. destruct a as [|b a]; [contradiction|].
  cbn [ends_with] in He.
  unfold CSVRow.parse_cell. cbn [negb front back bind last_char].
  rewrite Ascii.eqb_refl. cbn [bind]. rewrite He. cbn [bind].
  rewrite substr_tail by assumption. reflexivity.
Qed.

(** Inside a quoted span a cell that does not end with the quote character
    is kept, and one that ends with it loses it and closes the span. *)
Lemma parse_cell_inside (q : ascii) (cell : string) :
  cell <> EmptyString -> ends_with q cell = false ->
  CSVRow.parse_cell q true cell = Ok (true, cell).
Proof.
  destruct cell as [|a s]; [contradiction|]. cbn [ends_with]. intros _ H.
  unfold CSVRow.parse_cell. cbn [negb back bind]. now rewrite H.
Qed.

Lemma parse_cell_close (q : ascii) (b : string) :
  size (b ++ String q EmptyString) < size_t_modulus ->
  CSVRow.parse_cell q true (b ++ String q EmptyString) = Ok (false, b).
Proof.
  intros Hsz. destruct b as [|c b].
  - cbn [append] in *. unfold CSVRow.parse_cell. cbn [negb back bind last_char].
    rewrite Ascii.eqb_refl. rewrite substr_init by assumption. reflexivity.
  - cbn [append] in *. unfold CSVRow.parse_cell. cbn [negb back bind].
    rewrite last_char_app, Ascii.eqb_refl.
    rewrite substr_init by assumption. cbn [bind]. now rewrite drop_last_app.
Qed.

Lemma process_cells_plain (q : ascii) (cells : list string) :
  forall vals : list string,
    Forall (fun c => c <> EmptyString /\ starts_with q c = false) cells ->
    process_cells q false cells vals = Ok (vals ++ cells)%list.
Proof.
  induction cells as [|c cs IH]; intros vals H.
  - cbn. now rewrite app_nil_r.
  - inversion H as [|? ? [Hne Hs] Hcs]; subst. cbn [process_cells].
    rewrite parse_cell_plain by assumption. rewrite IH by assumption.
    now rewrite <- app_assoc.
Qed.

Lemma process_cells_quoted (q : ascii) (fields : list string) :
  forall vals : list string,
    Forall (fun f => size (quoted q f) < size_t_modulus) fields ->
    process_cells q false (map (quoted q) fields) vals = Ok (vals ++ fields)%list.
Proof.
  induction fields as [|f fs IH]; intros vals H.
  - cbn. now rewrite app_nil_r.
  - inversion H as [|? ? Hf Hfs]; subst. cbn [map process_cells].
    rewrite parse_cell_quoted by assumption. rewrite IH by assumption.
    now rewrite <- app_assoc.
Qed.

Lemma process_cells_inside (q : ascii) (cells : list string) (b : string) :
  forall vals : list string,
    Forall (fun c => c <> EmptyString /\ ends_with q c = false) cells ->
    size (b ++ String q EmptyString) < size_t_modulus ->
    process_cells q true (cells ++ [b ++ String q EmptyString]) vals =
    Ok (vals ++ cells ++ [b])%list.
Proof.
  induction cells as [|c cs IH]; intros vals H Hb.
  - cbn [app process_cells]. now rewrite parse_cell_close.
  - inversion H as [|? ? [Hne He] Hcs]; subst. cbn [app process_cells].
    rewrite parse_cell_inside by assumption. rewrite IH by assumption.
    now rewrite <- app_assoc.
Qed.

Lemma free_of_app (c : ascii) (a b : string) :
  free_of c (a ++ b) = free_of c a && free_of c b.
Proof.
  unfold free_of. induction a as [|x a IH]; cbn [append string_forall];
    [reflexivity|].
  now rewrite IH, andb_assoc.
Qed.

(** X1.  Fields that are not empty, do not contain the delimiter and do not
    start with the quote character survive a round trip: the line made of
    the fields joined by the delimiter is tokenized into exactly these
    fields. *)
Theorem tokenize_join (fields : list string) (d q : ascii) (n : Z) :
  forallb (fun f => negb (empty f) && free_of d f && negb (starts_with q f))
          fields = true ->
  CSVRow.new (join d fields) d q n = Ok (CSVRow.mk n fields d q).
Proof.
  intros H. rewrite forallb_forall in H. rewrite new_cells.
  rewrite getline_cells_join.
  - rewrite process_cells_plain; [reflexivity|].
    apply Forall_forall. intros f Hf. specialize (H f Hf).
    apply andb_true_iff in H as [H Hs]. apply andb_true_iff in H as [He _].
    apply negb_true_iff in Hs. split; [|exact Hs].
    destruct f; [discriminate | discriminate].
  - apply Forall_forall. intros f Hf. specialize (H f Hf).
    apply andb_true_iff in H as [H _]. apply andb_true_iff in H as [He Hd].
    split; [exact Hd|]. destruct f; [discriminate | discriminate].
Qed.

Lemma tokenize_join_witness :
  CSVRow.new "Bob;thirty;5.5" ";" "'" 2
  = Ok (CSVRow.mk 2 ["Bob"; "thirty"; "5.5"] ";" "'").
Proof.
  apply (tokenize_join ["Bob"; "thirty"; "5.5"] ";" "'" 2). reflexivity.
Defined.

(** X2.  Fields written between quote characters survive a round trip
    whatever they contain but the delimiter: they may be empty, and may
    contain quote characters.  The quote character must differ from the
    delimiter. *)
Theorem tokenize_quoted (fields : list string) (d q : ascii) (n : Z) :
  d <> q ->
  forallb (free_of d) fields = true ->
  size (join d (map (quoted q) fields)) < size_t_modulus ->
  CSVRow.new (join d (map (quoted q) fields)) d q n
  = Ok (CSVRow.mk n fields d q).
Proof.
  intros Hdq H Hsz. rewrite forallb_forall in H.
  assert (Hcells : getline_cells d (join d (map (quoted q) fields)) =
                   map (quoted q) fields).
  { apply getline_cells_join. apply Forall_forall. intros c Hc.
    apply in_map_iff in Hc as (f & <- & Hf). split; [|discriminate].
    unfold quoted. change (String q (f ++ String q EmptyString))
      with (String q EmptyString ++ f ++ String q EmptyString).
    rewrite !free_of_app, (H f Hf).
    assert (Hq : free_of d (String q EmptyString) = true).
    { unfold free_of. cbn. destruct (Ascii.eqb_spec q d); [congruence|reflexivity]. }
    now rewrite Hq. }
  rewrite new_cells, Hcells. rewrite process_cells_quoted; [reflexivity|].
  pose proof (getline_cells_size d (join d (map (quoted q) fields))) as Hs.
  rewrite Hcells in Hs. rewrite Forall_map in Hs.
  eapply Forall_impl; [|exact Hs]. cbv beta. intros; lia.
Qed.

Lemma tokenize_quoted_witness :
  CSVRow.new (join "," (map (quoted "'") ["it's"; ""; "a b"])) "," "'" 1
  = Ok (CSVRow.mk 1 ["it's"; ""; "a b"] "," "'").
Proof.
  apply (tokenize_quoted ["it's"; ""; "a b"] "," "'" 1);
    [discriminate | reflexivity | reflexivity].
Defined.

(** X3.  Quotes do not protect delimiters.  A quoted text that contains
    delimiters is split at each of them: the piece after the opening quote,
    the pieces in between, and the piece before the closing quote become
    separate tokens, and only the two outer quote characters are removed. *)
Theorem quoted_span_split (a b : string) (ms : list string) (d q : ascii) (n : Z) :
  d <> q ->
  negb (empty a) && free_of d a && negb (ends_with q a) = true ->
  forallb (fun m => negb (empty m) && free_of d m && negb (ends_with q m)) ms
  = true ->
  free_of d b = true ->
  size (join d (String q a :: ms ++ [b ++ String q EmptyString]))
  < size_t_modulus ->
  CSVRow.new (join d (String q a :: ms ++ [b ++ String q EmptyString])) d q n
  = Ok (CSVRow.mk n (a :: ms ++ [b]) d q).
Proof.
  intros Hdq Ha Hms Hb Hsz.
  apply andb_true_iff in Ha as [Ha Hae]. apply andb_true_iff in Ha as [Hane Had].
  apply negb_true_iff in Hae. rewrite forallb_forall in Hms.
  assert (Hq : free_of d (String q EmptyString) = true).
  { unfold free_of. cbn. destruct (Ascii.eqb_spec q d); [congruence|reflexivity]. }
  assert (Hcells :
    getline_cells d (join d (String q a :: ms ++ [b ++ String q EmptyString])) =
    String q a :: ms ++ [b ++ String q EmptyString]).
  { apply getline_cells_join. constructor.
    - split; [|discriminate].
      change (String q a) with (String q EmptyString ++ a).
      now rewrite free_of_app, Hq, Had.
    - apply Forall_app. split.
      + apply Forall_forall. intros m Hm. specialize (Hms m Hm).
        apply andb_true_iff in Hms as [Hm1 _].
        apply andb_true_iff in Hm1 as [Hne Hd].
        split; [exact Hd|]. destruct m; discriminate.
      + constructor; [|constructor]. split.
        * now rewrite free_of_app, Hb, Hq.
        * destruct b; discriminate. }
  pose proof (getline_cells_size d
    (join d (String q a :: ms ++ [b ++ String q EmptyString]))) as Hs.
  rewrite Hcells in Hs. inversion Hs as [|? ? Hs1 Hs2]; subst.
  apply Forall_app in Hs2 as [_ Hs3]. inversion Hs3 as [|? ? Hs4 _]; subst.
  rewrite new_cells, Hcells. cbn [process_cells].
  rewrite parse_cell_open; [| lia | destruct a; discriminate | exact Hae].
  rewrite process_cells_inside; [reflexivity | | lia].
  apply Forall_forall. intros m Hm. specialize (Hms m Hm).
  apply andb_true_iff in Hms as [Hm1 Hm2].
  apply andb_true_iff in Hm1 as [Hne _]. apply negb_true_iff in Hm2.
  split; [destruct m; discriminate | exact Hm2].
Qed.

Lemma quoted_span_split_witness :
  CSVRow.new (join "," [String "'" "Doe"; " John"; " Jr" ++ String "'" EmptyString])
             "," "'" 5
  = Ok (CSVRow.mk 5 ["Doe"; " John"; " Jr"] "," "'").
Proof.
  apply (quoted_span_split "Doe" " Jr" [" John"] "," "'" 5);
    [discriminate | reflexivity | reflexivity | reflexivity | reflexivity].
Defined.

Lemma substring_forall (p : ascii -> bool) (s : string) :
  forall n m : nat,
    string_forall p s = true -> string_forall p (String.substring n m s) = true.
Proof.
  induction s as [|a s IH]; intros n m H.
  - destruct n, m; reflexivity.
  - cbn [string_forall] in H. apply andb_true_iff in H as [Ha Hs].
    destruct n as [|n]; cbn [String.substring].
    + destruct m as [|m]; [reflexivity|].
      cbn [string_forall]. now rewrite Ha, IH.
    + now apply IH.
Qed.

Lemma substr_forall (p : ascii -> bool) (s r : string) (pos count : Z) :
  string_forall p s = true -> substr s pos count = Ok r ->
  string_forall p r = true.
Proof.
  unfold substr. destruct (size s <? pos); [discriminate|].
  intros H E. injection E as <-. now apply substring_forall.
Qed.

(** What the loop body emits is made of characters of the cell. *)
Lemma parse_cell_forall (p : ascii -> bool) (q : ascii) (inQuotes i : bool)
    (cell tok : string) :
  string_forall p cell = true ->
  CSVRow.parse_cell q inQuotes cell = Ok (i, tok) ->
  string_forall p tok = true.
Proof.
  intros Hp. unfold CSVRow.parse_cell.
  destruct cell as [|a s]; [destruct inQuotes; discriminate|].
  destruct inQuotes; cbn [negb front back bind].
  - destruct (Ascii.eqb (last_char a s) q).
    + destruct (substr (String a s) 0 _) as [r| |] eqn:E; cbn [bind];
        try discriminate.
      intros H. injection H as _ <-. eapply substr_forall; eassumption.
    + intros H. injection H as _ <-. exact Hp.
  - destruct (Ascii.eqb a q); cbn [bind].
    + destruct (Ascii.eqb (last_char a s) q); cbn [bind].
      * destruct (substr (String a s) 1 _) as [r| |] eqn:E; cbn [bind];
          try discriminate.
        intros H. injection H as _ <-. eapply substr_forall; eassumption.
      * destruct (substr (String a s) 1 npos) as [r| |] eqn:E; cbn [bind];
          try discriminate.
        intros H. injection H as _ <-. eapply substr_forall; eassumption.
    + intros H. injection H as _ <-. exact Hp.
Qed.

Lemma process_cells_forall (p : ascii -> bool) (q : ascii) (cells : list string) :
  forall (inQuotes : bool) (vals out : list string),
    Forall (fun c => string_forall p c = true) cells ->
    Forall (fun c => string_forall p c = true) vals ->
    process_cells q inQuotes cells vals = Ok out ->
    Forall (fun c => string_forall p c = true) out.
Proof.
  induction cells as [|c cs IH]; intros inQuotes vals out Hc Hv.
  - cbn. intros E. injection E as <-. exact Hv.
  - inversion Hc as [|? ? Hc1 Hc2]; subst. cbn [process_cells].
    destruct (CSVRow.parse_cell q inQuotes c) as [[i tok]| |] eqn:E;
      try discriminate.
    apply IH; [assumption|]. apply Forall_app. split; [assumption|].
    constructor; [|constructor]. eapply parse_cell_forall; eassumption.
Qed.

Lemma getline_cells_free (d : ascii) (s : string) :
  Forall (fun c => free_of d c = true) (getline_cells d s).
Proof.
  unfold free_of. induction s as [|a s IH]; [constructor|].
  cbn [getline_cells]. destruct (Ascii.eqb a d) eqn:E.
  - constructor; [reflexivity | exact IH].
  - destruct (getline_cells d s) as [|x xs].
    + constructor; [|constructor]. cbn. now rewrite E.
    + inversion IH as [|? ? Hx Hxs]; subst.
      constructor; [|assumption]. cbn [string_forall]. now rewrite E, Hx.
Qed.

(** X4.  No token contains the delimiter. *)
Theorem tokens_free_of_delimiter (line : string) (d q : ascii) (n : Z)
    (row : CSVRow.t) :
  CSVRow.new line d q n = Ok row ->
  Forall (fun tok => free_of d tok = true) (CSVRow.values row).
Proof.
  rewrite new_cells.
  destruct (process_cells q false (getline_cells d line) []) as [vs| |] eqn:E;
    cbn [bind]; try discriminate.
  intros H. injection H as <-. cbn [CSVRow.values].
  eapply (process_cells_forall _ q _ false [] vs); [| constructor | exact E].
  apply getline_cells_free.
Qed.

Lemma tokens_free_of_delimiter_witness :
  Forall (fun tok => free_of "," tok = true) ["a'b"; "c"; "d"].
Proof.
  apply (tokens_free_of_delimiter "a'b,'c,d'" "," "'" 1
           (CSVRow.mk 1 ["a'b"; "c"; "d"] "," "'")).
  reflexivity.
Defined.

Lemma process_cells_no_throw (q : ascii) (cells : list string) :
  forall (inQuotes : bool) (vals : list string) (e : exn),
    process_cells q inQuotes cells vals <> Throw e.
Proof.
  induction cells as [|c cs IH]; intros inQuotes vals e; [discriminate|].
  cbn [process_cells]. destruct c as [|a s].
  - rewrite parse_cell_empty. discriminate.
  - destruct (parse_cell_defined q inQuotes a s) as (i & tok & ->). apply IH.
Qed.

Lemma new_no_throw (line : string) (d q : ascii) (n : Z) (e : exn) :
  CSVRow.new line d q n <> Throw e.
Proof.
  rewrite new_cells.
  destruct (process_cells q false (getline_cells d line) []) eqn:E;
    cbn [bind]; try discriminate.
  now destruct (process_cells_no_throw _ _ _ _ _ E).
Qed.

(** X5.  Building a row never throws: [substr] is never called with a
    position past the end.  It is undefined exactly when the line has an
    empty cell, and returns a row otherwise. *)
Theorem tokenizer_outcome (line : string) (d q : ascii) (n : Z) :
  (forall e, CSVRow.new line d q n <> Throw e) /\
  (CSVRow.new line d q n = Undefined <-> no_empty_cell d line = false) /\
  ((exists row, CSVRow.new line d q n = Ok row) <-> no_empty_cell d line = true).
Proof.
  assert (Hthrow : forall e, CSVRow.new line d q n <> Throw e).
  { intros e. rewrite new_cells.
    destruct (process_cells q false (getline_cells d line) []) eqn:E;
      cbn [bind]; try discriminate.
    now destruct (process_cells_no_throw _ _ _ _ _ E). }
  assert (Hundef : no_empty_cell d line = false ->
                   CSVRow.new line d q n = Undefined).
  { intros H. rewrite new_cells. rewrite process_cells_undefined; [reflexivity|].
    unfold no_empty_cell in H.
    induction (getline_cells d line) as [|c cs IH]; [discriminate|].
    cbn [forallb] in H. destruct c as [|a s]; [left; reflexivity|].
    right. apply IH. exact H. }
  assert (Hok : no_empty_cell d line = true ->
                exists row, CSVRow.new line d q n = Ok row).
  { intros H. rewrite new_cells.
    destruct (process_cells_defined q _ false [] H) as (toks & -> & _).
    cbn [bind]. eauto. }
  split; [exact Hthrow|]. split; split.
  - intros H. destruct (no_empty_cell d line) eqn:E; [|reflexivity].
    destruct (Hok eq_refl) as (row & Hr). congruence.
  - exact Hundef.
  - intros (row & Hr). destruct (no_empty_cell d line) eqn:E; [reflexivity|].
    rewrite (Hundef eq_refl) in Hr. discriminate.
  - exact Hok.
Qed.

Lemma tokenizer_outcome_witness :
  (CSVRow.new ",x" "," "'" 1 = Undefined <-> no_empty_cell "," ",x" = false) /\
  ((exists row, CSVRow.new "x," "," "'" 1 = Ok row) <->
   no_empty_cell "," "x," = true).
Proof.
  split.
  - apply (tokenizer_outcome ",x" "," "'" 1).
  - apply (tokenizer_outcome "x," "," "'" 1).
Defined.

(** ** Value Converter: which fields convert *)

Lemma skipws_split (s : string) :
  exists ws, s = ws ++ skipws s /\ string_forall isspace ws = true.
Proof.
  induction s as [|c s (ws & Hs & Hws)].
  - exists EmptyString. split; reflexivity.
  - cbn [skipws]. destruct (isspace c) eqn:E.
    + exists (String c ws). cbn [append string_forall].
      rewrite E, Hws. split; [now rewrite <- Hs | reflexivity].
    + exists EmptyString. split; reflexivity.
Qed.

Lemma scan_sign_split (s1 s2 : string) (negative : bool) :
  scan_sign s1 = (negative, s2) ->
  exists sg, s1 = sign_string sg ++ s2 /\
             negative = match sg with Minus => true | _ => false end.
Proof.
  destruct s1 as [|c r].
  - cbn. intros E. injection E as <- <-. exists NoSign. split; reflexivity.
  - rewrite scan_sign_spec.
    destruct (Ascii.eqb_spec c "-") as [->|_].
    { intros E. injection E as <- <-. exists Minus. split; reflexivity. }
    destruct (Ascii.eqb_spec c "+") as [->|_].
    { intros E. injection E as <- <-. exists Plus. split; reflexivity. }
    intros E. injection E as <- <-. exists NoSign. split; reflexivity.
Qed.

Lemma scan_digits_split (s : string) :
  forall (acc : Z) (n : nat) (v : Z) (n' : nat) (rest : string),
    scan_digits s acc n = (v, n', rest) ->
    exists ds, s = ds ++ rest /\ string_forall isdigit ds = true /\
               v = decimal acc ds /\ n' = (n + String.length ds)%nat /\
               no_leading_digit rest = true.
Proof.
  induction s as [|c s IH]; intros acc n v n' rest.
  - cbn. intros E. injection E as <- <- <-. exists EmptyString.
    repeat split. cbn. lia.
  - cbn [scan_digits]. destruct (isdigit c) eqn:D.
    + intros E. destruct (IH _ _ _ _ _ E) as (ds & -> & Hd & -> & -> & Hr).
      exists (String c ds). cbn [append string_forall decimal String.length].
      rewrite D, Hd. repeat split; [lia | exact Hr].
    + intros E. injection E as <- <- <-. exists EmptyString.
      cbn [append string_forall decimal String.length no_leading_digit].
      rewrite D. repeat split. lia.
Qed.

(** X6.  A numeric conversion succeeds on nothing but white space followed
    by a numeral that ends the field and fits the type: an empty field, a
    field of white space, a sign alone, any other character, or anything
    after the digits makes it throw. *)
Theorem conversion_only_numerals (t : inttype) (str : string) (v : value) :
  convertFromString (Tnum t) str = Ok v ->
  exists ws sg ds,
    str = ws ++ sign_string sg ++ ds /\
    string_forall isspace ws = true /\
    string_forall isdigit ds = true /\
    ds <> EmptyString /\
    int_min t <= numeral_value sg ds <= int_max t /\
    v = Vnum t (numeral_value sg ds).
Proof.
  unfold convertFromString, extract, stringstream, good.
  cbn [eofbit failbit rdbuf negb andb].
  destruct (skipws_split str) as (ws & Hstr & Hws).
  destruct (skipws str) as [|a s1] eqn:Hsk; [discriminate|].
  destruct (scan_sign (String a s1)) as [negative s2] eqn:Hsg.
  destruct (scan_sign_split _ _ _ Hsg) as (sg & Hs1 & Hneg).
  destruct (scan_digits s2 0 0) as [[z n] rest] eqn:Hsd.
  destruct (scan_digits_split _ _ _ _ _ _ Hsd) as (ds & Hs2 & Hds & Hz & Hn & _).
  destruct n as [|n]; [discriminate|].
  destruct (Z.ltb_spec (if negative then - z else z) (int_min t));
    [discriminate|].
  destruct (Z.ltb_spec (int_max t) (if negative then - z else z));
    [discriminate|].
  cbn [fail eof failbit eofbit orb].
  destruct rest as [|c rest]; [|discriminate]. cbn [empty negb].
  intros E. injection E as <-.
  rewrite append_empty_r_local in Hs2.
  assert (Hval : (if negative then - z else z) = numeral_value sg ds).
  { unfold numeral_value. subst negative z. destruct sg; reflexivity. }
  exists ws, sg, ds. rewrite <- Hval.
  repeat split; try assumption; try lia.
  - rewrite Hstr, Hs1, Hs2. reflexivity.
  - intros ->. cbn in Hn. lia.
Qed.

Lemma conversion_only_numerals_witness :
  exists ws sg ds,
    " +07" = ws ++ sign_string sg ++ ds /\
    string_forall isspace ws = true /\
    string_forall isdigit ds = true /\
    ds <> EmptyString /\
    int_min Tshort <= numeral_value sg ds <= int_max Tshort /\
    Vnum Tshort 7 = Vnum Tshort (numeral_value sg ds).
Proof.
  apply (conversion_only_numerals Tshort " +07" (Vnum Tshort 7)). reflexivity.
Defined.

(** ** Row Decoder: when a tuple is returned *)

(** X7.  [getValues] returns a tuple exactly when the row holds a token for
    every type of the schema and each of these tokens converts; the tuple
    then has the arity of the schema and its component [j] is the converted
    token [j].  Tokens beyond the arity play no part. *)
Theorem getValues_ok (row : CSVRow.t) (T : ctype) (Rest : list ctype)
    (vs : list value) :
  CSVRow.getValues row T Rest = Ok vs <->
  List.length vs = List.length (T :: Rest) /\
  forall j, (j < List.length (T :: Rest))%nat ->
    exists s, nth_error (CSVRow.values row) j = Some s /\
              convertFromString (nth j (T :: Rest) Tstring) s =
              Ok (nth j vs (Vstring EmptyString)).
Proof.
  unfold CSVRow.getValues.
  enough (G : forall (Rest : list ctype) (T : ctype) (k : nat) (vs : list value),
             CSVRow.convertToTuple row k T Rest = Ok vs <->
             List.length vs = List.length (T :: Rest) /\
             forall j, (j < List.length (T :: Rest))%nat ->
               exists s, nth_error (CSVRow.values row) (k + j) = Some s /\
                         convertFromString (nth j (T :: Rest) Tstring) s =
                         Ok (nth j vs (Vstring EmptyString)))
    by exact (G Rest T 0%nat vs).
  clear T Rest vs. intros Rest.
  induction Rest as [|T' Rest' IH]; intros T k vs;
    rewrite convertToTuple_unfold; unfold CSVRow.values_at.
  - split.
    + destruct (nth_error (CSVRow.values row) k) as [s|] eqn:E;
        cbn [bind catch_all]; [|discriminate].
      destruct (convertFromString T s) as [v| |] eqn:C; cbn [bind catch_all];
        try discriminate.
      intros H. injection H as <-. split; [reflexivity|].
      intros j Hj. cbn in Hj. assert (j = 0%nat) as -> by lia.
      rewrite Nat.add_0_r. exists s. split; [exact E | exact C].
    + intros [Hl Hj]. destruct (Hj 0%nat) as (s & Hs & Hc); [cbn; lia|].
      rewrite Nat.add_0_r in Hs. rewrite Hs. cbn [bind nth] in *.
      rewrite Hc. cbn [catch_all bind].
      destruct vs as [|v [|w vs]]; cbn in Hl; try lia. reflexivity.
  - split.
    + destruct (nth_error (CSVRow.values row) k) as [s|] eqn:E;
        cbn [bind catch_all]; [|discriminate].
      destruct (convertFromString T s) as [v| |] eqn:C; cbn [bind catch_all];
        try discriminate.
      destruct (CSVRow.convertToTuple row (k + 1) T' Rest') as [rest| |] eqn:R;
        cbn [bind]; try discriminate.
      intros H. injection H as <-.
      apply IH in R as [Hl Hj]. split; [cbn [List.length] in *; lia|].
      intros [|j] Hlt.
      * rewrite Nat.add_0_r. exists s. split; [exact E | exact C].
      * destruct (Hj j) as (sj & Hsj & Hcj); [cbn [List.length] in *; lia|].
        exists sj. split; [|exact Hcj]. rewrite <- Hsj. f_equal. lia.
    + intros [Hl Hj]. destruct vs as [|v rest]; [cbn in Hl; lia|].
      destruct (Hj 0%nat) as (s & Hs & Hc); [cbn; lia|].
      rewrite Nat.add_0_r in Hs. rewrite Hs. cbn [bind nth] in *.
      rewrite Hc. cbn [catch_all bind].
      assert (R : CSVRow.convertToTuple row (k + 1) T' Rest' = Ok rest).
      { apply IH. split; [cbn [List.length] in *; lia|].
        intros j Hlt. destruct (Hj (S j)) as (sj & Hsj & Hcj);
          [cbn [List.length] in *; lia|].
        exists sj. split; [|exact Hcj]. rewrite <- Hsj. f_equal. lia. }
      rewrite R. reflexivity.
Qed.

Lemma getValues_ok_witness :
  List.length [Vstring "Alice"; Vnum Tint 30] = 2%nat /\
  forall j, (j < 2)%nat ->
    exists s, nth_error ["Alice"; "30"; "x"] j = Some s /\
              convertFromString (nth j [Tstring; Tnum Tint] Tstring) s =
              Ok (nth j [Vstring "Alice"; Vnum Tint 30] (Vstring EmptyString)).
Proof.
  apply (getValues_ok (CSVRow.mk 1 ["Alice"; "30"; "x"] "," "'")
           Tstring [Tnum Tint] [Vstring "Alice"; Vnum Tint 30]).
  reflexivity.
Defined.

(** ** Output of integers and tuples *)

Lemma append_assoc_local (a b c : string) : (a ++ b) ++ c = a ++ b ++ c.
Proof. induction a as [|x a IH]; cbn; [reflexivity | now rewrite IH]. Qed.

Lemma decimal_app (a : Z) (x y : string) :
  decimal a (x ++ y) = decimal (decimal a x) y.
Proof. revert a. induction x as [|c x IH]; intros a; cbn; auto. Qed.

Lemma string_forall_app (p : ascii -> bool) (a b : string) :
  string_forall p (a ++ b) = string_forall p a && string_forall p b.
Proof.
  induction a as [|x a IH]; cbn [append string_forall]; [reflexivity|].
  now rewrite IH, andb_assoc.
Qed.

Lemma digit_char_spec (k : N) :
  (k < 10)%N ->
  isdigit (digit_char k) = true /\ digit_value (digit_char k) = Z.of_N k.
Proof.
  intros H. unfold isdigit, digit_value, digit_char.
  rewrite N_ascii_embedding by lia. cbv zeta. split; [|lia].
  apply andb_true_iff. split; apply N.leb_le; lia.
Qed.

Lemma put_digits_spec (fuel : nat) :
  forall (n : N) (acc : string),
    (0 < fuel)%nat -> (n < 2 ^ N.of_nat fuel)%N ->
    exists ds, put_digits fuel n acc = ds ++ acc /\
               string_forall isdigit ds = true /\
               ds <> EmptyString /\
               decimal 0 ds = Z.of_N n.
Proof.
  induction fuel as [|fuel IH]; intros n acc Hf Hn.
  - lia.
  - cbn [put_digits]. cbv zeta.
    assert (Hm : (n mod 10 < 10)%N) by (apply N.mod_lt; lia).
    destruct (digit_char_spec _ Hm) as [Hd Hv].
    destruct (N.ltb_spec n 10) as [Hlt|Hge].
    + exists (String (digit_char (n mod 10)) EmptyString).
      cbn [append string_forall decimal]. rewrite Hd, Hv.
      rewrite N.mod_small by assumption.
      repeat split; try discriminate; try lia.
    + destruct (IH (n / 10)%N (String (digit_char (n mod 10)) acc))
        as (ds & -> & Hds & Hne & Hval).
      { destruct fuel; [cbn in Hn; lia | lia]. }
      { rewrite Nat2N.inj_succ, N.pow_succ_r' in Hn.
        apply N.Div0.div_lt_upper_bound. lia. }
      exists (ds ++ String (digit_char (n mod 10)) EmptyString).
      rewrite append_assoc_local. cbn [append].
      rewrite string_forall_app, decimal_app, Hds, Hval.
      cbn [string_forall decimal]. rewrite Hd, Hv.
      pose proof (N.div_mod n 10 ltac:(lia)).
      repeat split; try lia. destruct ds; discriminate.
Qed.

(** The digits written for [n] are digits, there is at least one, and they
    denote [n]. *)
Lemma put_N_value (n : N) :
  string_forall isdigit (put_N n) = true /\
  put_N n <> EmptyString /\
  decimal 0 (put_N n) = Z.of_N n.
Proof.
  unfold put_N.
  destruct (put_digits_spec (S (N.to_nat (N.log2 n))) n EmptyString)
    as (ds & E & Hd & Hne & Hv).
  - lia.
  - rewrite Nat2N.inj_succ, N2Nat.id.
    destruct n as [|p]; [reflexivity|]. apply N.log2_spec. lia.
  - rewrite E, append_empty_r_local. auto.
Qed.

(** X8.  Writing an integer and converting the text back gives the integer,
    for every integer of the target type: output and numeric conversion are
    inverse to each other. *)
Theorem put_integer_round_trip (t : inttype) (z : Z) :
  int_min t <= z <= int_max t ->
  convertFromString (Tnum t) (put_integer z) = Ok (Vnum t z).
Proof.
  intros Hz. unfold put_integer.
  destruct (Z.ltb_spec z 0) as [Hneg|Hpos].
  - destruct (put_N_value (Z.to_N (- z))) as (Hd & Hne & Hv).
    pose proof (extract_numeral t EmptyString Minus (put_N (Z.to_N (- z)))
                  EmptyString eq_refl Hd Hne eq_refl) as H.
    cbn [append sign_string] in H. rewrite append_empty_r_local in H.
    unfold convertFromString. rewrite H. cbv zeta.
    unfold numeral_value. rewrite Hv, Z2N.id by lia.
    replace (- - z) with z by lia.
    destruct (Z.ltb_spec z (int_min t)); [lia|].
    destruct (Z.ltb_spec (int_max t) z); [lia|]. reflexivity.
  - destruct (put_N_value (Z.to_N z)) as (Hd & Hne & Hv).
    pose proof (extract_numeral t EmptyString NoSign (put_N (Z.to_N z))
                  EmptyString eq_refl Hd Hne eq_refl) as H.
    cbn [append sign_string] in H. rewrite append_empty_r_local in H.
    unfold convertFromString. rewrite H. cbv zeta.
    unfold numeral_value. rewrite Hv, Z2N.id by lia.
    destruct (Z.ltb_spec z (int_min t)); [lia|].
    destruct (Z.ltb_spec (int_max t) z); [lia|]. reflexivity.
Qed.

Lemma put_integer_round_trip_witness :
  convertFromString (Tnum Tint) (put_integer (-2147483648))
  = Ok (Vnum Tint (-2147483648)).
Proof.
  apply (put_integer_round_trip Tint (-2147483648)). cbn. lia.
Defined.

Lemma print_tuple_step (idx : nat) (stream : ostream) (t : list value) :
  print_tuple idx stream t =
  if (idx <? List.length t)%nat
  then print_tuple (idx + 1)
         (shl_value (if negb (idx =? 0)%nat then stream ++ ", " else stream)
                    (nth idx t (Vstring EmptyString)))
         t
  else stream.
Proof.
  funelim (print_tuple idx stream t).
  - rewrite Hlt. reflexivity.
  - rewrite e. reflexivity.
Qed.

Lemma shl_value_show (stream : ostream) (v : value) :
  shl_value stream v = stream ++ show v.
Proof. destruct v; reflexivity. Qed.

Lemma skipn_nth (A : Type) (d : A) (t : list A) :
  forall idx : nat,
    (idx < List.length t)%nat -> skipn idx t = nth idx t d :: skipn (S idx) t.
Proof.
  induction t as [|x t IH]; intros idx H; [cbn in H; lia|].
  destruct idx as [|idx]; [reflexivity|].
  cbn [skipn nth]. rewrite IH by (cbn in H; lia). reflexivity.
Qed.

(** From the second component on, each component is written after a
    separator. *)
Lemma print_tuple_rest (t : list value) (k : nat) :
  forall (idx : nat) (stream : ostream),
    (List.length t - idx = k)%nat -> (0 < idx)%nat ->
    print_tuple idx stream t =
    stream ++ fold_right (fun v acc => ", " ++ show v ++ acc) EmptyString
                         (skipn idx t).
Proof.
  induction k as [|k IH]; intros idx stream Hk Hidx;
    rewrite print_tuple_step.
  - destruct (Nat.ltb_spec idx (List.length t)); [lia|].
    rewrite skipn_all2 by lia. cbn. now rewrite append_empty_r_local.
  - destruct (Nat.ltb_spec idx (List.length t)); [|lia].
    destruct (Nat.eqb_spec idx 0); [lia|]. cbn [negb].
    rewrite IH by lia.
    rewrite (skipn_nth _ (Vstring EmptyString) t idx) by assumption.
    rewrite Nat.add_1_r. cbn [fold_right].
    rewrite shl_value_show. now rewrite !append_assoc_local.
Qed.

Lemma concat_cons (sep x : string) (xs : list string) :
  String.concat sep (x :: xs) =
  x ++ fold_right (fun v acc => sep ++ v ++ acc) EmptyString xs.
Proof.
  revert x. induction xs as [|y ys IH]; intros x.
  - cbn. now rewrite append_empty_r_local.
  - change (String.concat sep (x :: y :: ys))
      with (x ++ sep ++ String.concat sep (y :: ys)).
    rewrite IH. reflexivity.
Qed.

(** X9.  A tuple is written as its components in order, separated by a
    comma and a space, between braces; the empty tuple is written as the two
    braces.  No separator follows the last component. *)
Theorem tuple_output (stream : ostream) (t : list value) :
  shl_tuple stream t =
  stream ++ "{" ++ String.concat ", " (map show t) ++ "}".
Proof.
  unfold shl_tuple. destruct t as [|v vs]; [reflexivity|].
  cbn [List.length Nat.eqb]. rewrite print_tuple_step.
  cbn [List.length Nat.ltb Nat.leb Nat.eqb negb nth Nat.add].
  rewrite (print_tuple_rest (v :: vs) (List.length vs)) by (cbn; lia).
  cbn [skipn map]. rewrite concat_cons, shl_value_show.
  rewrite !append_assoc_local. do 3 f_equal.
  induction vs as [|w ws IH]; [reflexivity|].
  cbn [fold_right map]. rewrite !append_assoc_local. now rewrite IH.
Qed.

(** ** Row Stream: rows and lines *)

Lemma getline_scan_line (d : ascii) (l rest : string) :
  free_of d l = true ->
  getline_scan (l ++ String d rest) d = (l, rest, false).
Proof.
  unfold free_of. induction l as [|a l IH]; cbn [append getline_scan string_forall].
  - intros _. now rewrite Ascii.eqb_refl.
  - intros H. apply andb_true_iff in H as [Ha Hl].
    apply negb_true_iff in Ha. rewrite Ha, IH by assumption. reflexivity.
Qed.

Lemma getline_line (l rest str : string) :
  free_of "010" l = true ->
  getline (stringstream (l ++ String "010" rest)) str "010"
  = (stringstream rest, l).
Proof.
  intros H. unfold getline, stringstream, good.
  cbn [eofbit failbit rdbuf negb andb].
  now rewrite getline_scan_line.
Qed.

Lemma skip_unlines (lines : list string) :
  forall k : nat,
    forallb (free_of "010") lines = true ->
    (k <= List.length lines)%nat ->
    CSVParser.skip (ifstream (unlines lines)) k
    = ifstream (unlines (skipn k lines)).
Proof.
  induction lines as [|l ls IH]; intros k Hf Hk.
  - destruct k; [reflexivity | cbn in Hk; lia].
  - destruct k as [|k]; [reflexivity|].
    cbn [forallb] in Hf. apply andb_true_iff in Hf as [Hl Hls].
    cbn [CSVParser.skip unlines skipn]. unfold ifstream at 1.
    rewrite getline_line by assumption. cbn [fst].
    apply IH; [assumption | cbn in Hk; lia].
Qed.

Lemma skip_add (a b : nat) (file : istream) :
  CSVParser.skip file (a + b) = CSVParser.skip (CSVParser.skip file a) b.
Proof.
  revert file. induction a as [|a IH]; intros file; [reflexivity|].
  cbn [Nat.add CSVParser.skip]. apply IH.
Qed.

Lemma skip_exhausted (k : nat) :
  forall file : istream,
    exhausted file = true -> exhausted (CSVParser.skip file k) = true.
Proof.
  induction k as [|k IH]; intros file H; [exact H|].
  cbn [CSVParser.skip]. apply IH. now apply exhausted_next.
Qed.

Lemma new_defined (line : string) (n : Z) :
  no_empty_cell "," line = true ->
  exists row, CSVRow.new line "," "034" n = Ok row.
Proof.
  intros H. rewrite new_cells.
  destruct (process_cells_defined "034" _ false [] H) as (toks & -> & _).
  cbn [bind]. eauto.
Qed.

(** One pull over a file that starts with a full line. *)
Lemma advance_unlines (l : string) (ls : list string) (it : CSVParserIterator.t)
    (row : CSVRow.t) :
  free_of "010" l = true ->
  CSVParserIterator.lineNumber it <> CSVParserIterator.INT_MAX ->
  CSVRow.new l "," "034" (CSVParserIterator.lineNumber it + 1) = Ok row ->
  CSVParserIterator.advance (ifstream (unlines (l :: ls))) it =
  Ok (ifstream (unlines ls),
      CSVParserIterator.mk row (CSVParserIterator.end_ it)
                           (CSVParserIterator.lineNumber it + 1)).
Proof.
  intros Hl Hn Hrow. unfold CSVParserIterator.advance, ifstream.
  cbn [unlines]. rewrite getline_line by assumption.
  cbn [to_bool fail stringstream failbit negb].
  destruct (Z.eqb_spec (CSVParserIterator.lineNumber it) CSVParserIterator.INT_MAX);
    [contradiction|].
  rewrite Hrow. reflexivity.
Qed.

Lemma pulls_lines (m : nat) :
  forall (ls : list string) (it : CSVParserIterator.t),
    forallb (free_of "010") ls = true ->
    (m <= List.length ls)%nat ->
    forallb (no_empty_cell ",") (firstn m ls) = true ->
    0 <= CSVParserIterator.lineNumber it ->
    CSVParserIterator.lineNumber it + Z.of_nat m <= CSVParserIterator.INT_MAX ->
    exists it',
      pulls m (ifstream (unlines ls)) it
      = Ok (ifstream (unlines (skipn m ls)), it') /\
      CSVParserIterator.end_ it' = CSVParserIterator.end_ it /\
      CSVParserIterator.lineNumber it' =
      CSVParserIterator.lineNumber it + Z.of_nat m /\
      ((0 < m)%nat ->
       CSVRow.new (nth (m - 1) ls EmptyString) "," "034"
                  (CSVParserIterator.lineNumber it') =
       Ok (CSVParserIterator.currentRow it')).
Proof.
  induction m as [|m IH]; intros ls it Hf Hm Hc H0 Hmax.
  - exists it. cbn [pulls skipn]. repeat split; [lia | lia].
  - destruct ls as [|l ls]; [cbn in Hm; lia|].
    cbn [forallb firstn] in Hf, Hc.
    apply andb_true_iff in Hf as [Hl Hls].
    apply andb_true_iff in Hc as [Hcl Hcls].
    destruct (new_defined l (CSVParserIterator.lineNumber it + 1) Hcl)
      as (row & Hrow).
    cbn [pulls]. unfold CSVParserIterator.incr.
    rewrite (advance_unlines l ls it row Hl ltac:(lia) Hrow).
    cbn [bind fst snd].
    destruct (IH ls (CSVParserIterator.mk row (CSVParserIterator.end_ it)
                       (CSVParserIterator.lineNumber it + 1)))
      as (it' & Hp & He & Hn & Hr);
      cbn [CSVParserIterator.lineNumber CSVParserIterator.end_] in *;
      try assumption; try lia. { cbn in Hm; lia. }
    exists it'. split; [exact Hp|]. split; [exact He|]. split; [lia|].
    intros _. destruct m as [|m].
    + cbn [pulls] in Hp. injection Hp as <-.
      cbn [CSVParserIterator.lineNumber CSVParserIterator.currentRow nth Nat.sub].
      exact Hrow.
    + replace (S (S m) - 1)%nat with (S m) by lia. cbn [nth].
      specialize (Hr ltac:(lia)).
      replace (S m - 1)%nat with m in Hr by lia. exact Hr.
Qed.

Lemma pulls_add (a : nat) :
  forall (b : nat) (file : istream) (it : CSVParserIterator.t),
    pulls (a + b) file it = r <- pulls a file it ;; pulls b (fst r) (snd r).
Proof.
  induction a as [|a IH]; intros b file it; [reflexivity|].
  cbn [Nat.add pulls].
  destruct (CSVParserIterator.incr file it) as [[f1 it1]| |]; cbn [bind fst snd];
    [apply IH | reflexivity | reflexivity].
Qed.

Lemma pulls_exhausted (m : nat) :
  forall (file : istream) (it : CSVParserIterator.t),
    exhausted file = true ->
    exists file' it',
      pulls m file it = Ok (file', it') /\
      ((0 < m)%nat \/ CSVParserIterator.end_ it = true ->
       CSVParserIterator.end_ it' = true).
Proof.
  induction m as [|m IH]; intros file it Hex.
  - exists file, it. split; [reflexivity|]. intros [H|H]; [lia | exact H].
  - cbn [pulls]. unfold CSVParserIterator.incr.
    rewrite (advance_exhausted file it Hex). cbn [bind fst snd].
    destruct (IH (fst (getline file EmptyString "010"))
                 (CSVParserIterator.mk (CSVParserIterator.currentRow it) true
                                       (CSVParserIterator.lineNumber it))
                 (exhausted_next file Hex)) as (file' & it' & Hp & He).
    exists file', it'. split; [exact Hp|]. intros _. apply He. right. reflexivity.
Qed.

(** [begin()] is one pull of a fresh iterator on the stream left by the
    skipping loop. *)
Lemma open_stream_pull (file : istream) (k : nat) (d q : ascii) :
  open_stream file k d q =
  CSVParserIterator.incr (CSVParser.skip file k)
    (CSVParserIterator.mk (CSVRow.mk 0 [] d q) false 0).
Proof. reflexivity. Qed.

Lemma forallb_skipn (A : Type) (p : A -> bool) (l : list A) :
  forall k : nat, forallb p l = true -> forallb p (skipn k l) = true.
Proof.
  induction l as [|x l IH]; intros k H; [destruct k; reflexivity|].
  destruct k as [|k]; [exact H|].
  cbn [forallb] in H. apply andb_true_iff in H as [_ H]. now apply IH.
Qed.

(** X10.  Over a file of newline-terminated lines, a parser that skips [k]
    lines yields the lines from line [k] on, in order: after [begin()] and
    [m] increments the iterator is not at its end, holds the row built from
    line [k + m] with a comma and a double quote, numbers it [m + 1], and
    has consumed the file up to and including that line. *)
Theorem rows_follow_lines (lines : list string) (k m : nat) (d q : ascii) :
  forallb (free_of "010") lines = true ->
  (k + m < List.length lines)%nat ->
  forallb (no_empty_cell ",") (firstn (S m) (skipn k lines)) = true ->
  Z.of_nat m < CSVParserIterator.INT_MAX ->
  exists it,
    (r <- open_stream (ifstream (unlines lines)) k d q ;;
     pulls m (fst r) (snd r))
    = Ok (ifstream (unlines (skipn (k + S m) lines)), it) /\
    CSVParserIterator.end_ it = false /\
    CSVParserIterator.lineNumber it = Z.of_nat m + 1 /\
    CSVRow.new (nth (k + m) lines EmptyString) "," "034" (Z.of_nat m + 1)
    = Ok (CSVParserIterator.currentRow it).
Proof.
  intros Hf Hlen Hc Hm.
  rewrite open_stream_pull, skip_unlines by (assumption || lia).
  change (r <- CSVParserIterator.incr (ifstream (unlines (skipn k lines)))
                 (CSVParserIterator.mk (CSVRow.mk 0 [] d q) false 0) ;;
          pulls m (fst r) (snd r))
    with (pulls (S m) (ifstream (unlines (skipn k lines)))
                (CSVParserIterator.mk (CSVRow.mk 0 [] d q) false 0)).
  destruct (pulls_lines (S m) (skipn k lines)
              (CSVParserIterator.mk (CSVRow.mk 0 [] d q) false 0))
    as (it & Hp & He & Hn & Hr);
    cbn [CSVParserIterator.lineNumber CSVParserIterator.end_] in *.
  - now apply forallb_skipn.
  - rewrite length_skipn. lia.
  - exact Hc.
  - lia.
  - lia.
  - exists it. rewrite skipn_skipn in Hp.
    replace (S m + k)%nat with (k + S m)%nat in Hp by lia.
    split; [exact Hp|]. split; [exact He|]. split; [lia|].
    specialize (Hr ltac:(lia)).
    replace (S m - 1)%nat with m in Hr by lia.
    rewrite nth_skipn in Hr. rewrite Hn in Hr.
    replace (0 + Z.of_nat (S m)) with (Z.of_nat m + 1) in Hr by lia.
    exact Hr.
Qed.

Lemma rows_follow_lines_witness :
  exists it,
    (r <- open_stream (ifstream (unlines ["name,age"; ""; "a,1"; "b,2"; "c,,"]))
                      2 ";" "'" ;;
     pulls 1 (fst r) (snd r))
    = Ok (ifstream (unlines ["c,,"]), it) /\
    CSVParserIterator.end_ it = false /\
    CSVParserIterator.lineNumber it = 2 /\
    CSVRow.new "b,2" "," "034" 2 = Ok (CSVParserIterator.currentRow it).
Proof.
  apply (rows_follow_lines ["name,age"; ""; "a,1"; "b,2"; "c,,"] 2 1 ";" "'");
    [reflexivity | cbn; lia | reflexivity | reflexivity].
Defined.

(** X11.  The stream ends with the file: once [begin()] and the increments
    have gone through all lines left after the skipped ones, the iterator is
    at its end, and it is so at once when the parser skips as many lines as
    the file has, or more.  Nothing is thrown. *)
Theorem stream_ends_with_file (lines : list string) (k m : nat) (d q : ascii) :
  forallb (free_of "010") lines = true ->
  forallb (no_empty_cell ",") (skipn k lines) = true ->
  Z.of_nat (List.length lines) <= CSVParserIterator.INT_MAX ->
  (List.length lines <= k + m)%nat ->
  exists file it,
    (r <- open_stream (ifstream (unlines lines)) k d q ;;
     pulls m (fst r) (snd r)) = Ok (file, it) /\
    CSVParserIterator.end_ it = true.
Proof.
  intros Hf Hc Hmax Hlen. rewrite open_stream_pull.
  set (it0 := CSVParserIterator.mk (CSVRow.mk 0 [] d q) false 0).
  change (r <- CSVParserIterator.incr
                 (CSVParser.skip (ifstream (unlines lines)) k) it0 ;;
          pulls m (fst r) (snd r))
    with (pulls (S m) (CSVParser.skip (ifstream (unlines lines)) k) it0).
  destruct (Nat.le_gt_cases k (List.length lines)) as [Hk|Hk].
  - rewrite skip_unlines by assumption.
    set (rows := skipn k lines) in *.
    assert (Hrows : List.length rows = (List.length lines - k)%nat)
      by (subst rows; apply length_skipn).
    replace (S m) with (List.length rows + (S m - List.length rows))%nat by lia.
    rewrite pulls_add.
    destruct (pulls_lines (List.length rows) rows it0) as (it1 & Hp & _);
      subst it0; cbn [CSVParserIterator.lineNumber]; try lia.
    + subst rows. now apply forallb_skipn.
    + now rewrite firstn_all.
    + rewrite Hp. cbn [bind fst snd]. rewrite skipn_all.
      destruct (pulls_exhausted (S m - List.length rows) (ifstream (unlines []))
                  it1 eq_refl) as (file' & it' & Hp' & He').
      exists file', it'. split; [exact Hp'|]. apply He'. left. lia.
  - assert (Hex : exhausted (CSVParser.skip (ifstream (unlines lines)) k) = true).
    { replace k with (List.length lines + (k - List.length lines))%nat by lia.
      rewrite skip_add, skip_unlines by (assumption || lia).
      rewrite skipn_all. apply skip_exhausted. reflexivity. }
    destruct (pulls_exhausted (S m) _ it0 Hex) as (file' & it' & Hp' & He').
    exists file', it'. split; [exact Hp'|]. apply He'. left. lia.
Qed.

Lemma stream_ends_with_file_witness :
  exists file it,
    (r <- open_stream (ifstream (unlines ["h"; "a,1"; "b,2"])) 1 "," "034" ;;
     pulls 2 (fst r) (snd r)) = Ok (file, it) /\
    CSVParserIterator.end_ it = true.
Proof.
  apply (stream_ends_with_file ["h"; "a,1"; "b,2"] 1 2 "," "034");
    [reflexivity | reflexivity | cbn; lia | cbn; lia].
Defined.

(** ** The loop of main *)

Lemma shl_tuple_stream (out : ostream) (t : list value) :
  shl_tuple out t = out ++ shl_tuple EmptyString t.
Proof.
  unfold shl_tuple. destruct t as [|v vs]; [reflexivity|].
  cbn [List.length Nat.eqb].
  rewrite (print_tuple_step 0 (out ++ "{")),
          (print_tuple_step 0 (EmptyString ++ "{")).
  cbn [List.length Nat.ltb Nat.leb Nat.eqb negb nth Nat.add].
  rewrite (print_tuple_rest (v :: vs) (List.length vs) 1
             (shl_value (out ++ "{") v)) by (cbn; lia).
  rewrite (print_tuple_rest (v :: vs) (List.length vs) 1
             (shl_value (EmptyString ++ "{") v)) by (cbn; lia).
  rewrite !shl_value_show. cbn [append].
  now rewrite !append_assoc_local.
Qed.

Lemma decode_line_inv (T : ctype) (Rest : list ctype) (n : Z) (line : string)
    (r : outcome (list value)) :
  decode_line T Rest n line = r -> r <> Undefined ->
  exists row, CSVRow.new line "," "034" n = Ok row /\
              CSVRow.getValues row T Rest = r.
Proof.
  unfold decode_line. intros H Hr.
  destruct (CSVRow.new line "," "034" n) as [row|e|] eqn:E; cbn [bind] in H.
  - eauto.
  - destruct (new_no_throw line "," "034" n e E).
  - congruence.
Qed.

(** The loop from a row that decodes, over lines that all decode. *)
Lemma for_rows_good (T : ctype) (Rest : list ctype) (e : CSVParserIterator.t)
    (ls : list string) :
  CSVParserIterator.end_ e = true ->
  forall (tups : list (list value)) (row : CSVRow.t) (tup : list value)
         (n : Z) (fuel : nat) (out : ostream),
    forallb (free_of "010") ls = true ->
    List.length tups = List.length ls ->
    CSVRow.getValues row T Rest = Ok tup ->
    (forall i, (i < List.length ls)%nat ->
       decode_line T Rest (n + 1 + Z.of_nat i) (nth i ls EmptyString)
       = Ok (nth i tups [])) ->
    0 <= n -> n + Z.of_nat (List.length ls) <= CSVParserIterator.INT_MAX ->
    (List.length ls + 1 < fuel)%nat ->
    for_rows fuel T Rest (ifstream (unlines ls))
             (CSVParserIterator.mk row false n) e out
    = Some (out ++ rows_text (tup :: tups), Ok tt).
Proof.
  intros He. induction ls as [|l ls IH];
    intros tups row tup n fuel out Hf Hlen Hrow Hdec H0 Hmax Hfuel.
  - destruct tups; [|discriminate].
    destruct fuel as [|[|fuel]]; try (cbn in Hfuel; lia).
    cbn [for_rows]. unfold CSVParserIterator.neq at 1.
    cbn [CSVParserIterator.end_]. rewrite He. cbn [Bool.eqb negb].
    unfold CSVParserIterator.deref. cbn [CSVParserIterator.currentRow].
    rewrite Hrow. cbv zeta.
    change (CSVParserIterator.incr (ifstream (unlines []))
              (CSVParserIterator.mk row false n))
      with (Ok (mk_istream EmptyString true true,
                CSVParserIterator.mk row true n)).
    cbv iota beta. unfold CSVParserIterator.neq.
    cbn [CSVParserIterator.end_]. rewrite He. cbn [Bool.eqb negb].
    rewrite shl_tuple_stream. cbn [rows_text].
    now rewrite !append_assoc_local, append_empty_r_local.
  - destruct tups as [|tup0 tups]; [discriminate|].
    cbn [forallb] in Hf. apply andb_true_iff in Hf as [Hl Hls].
    destruct fuel as [|fuel]; [lia|].
    cbn [for_rows]. unfold CSVParserIterator.neq at 1.
    cbn [CSVParserIterator.end_]. rewrite He. cbn [Bool.eqb negb].
    unfold CSVParserIterator.deref. cbn [CSVParserIterator.currentRow].
    rewrite Hrow. cbv zeta.
    pose proof (Hdec 0%nat ltac:(cbn; lia)) as Hd0. cbn [nth] in Hd0.
    replace (n + 1 + Z.of_nat 0) with (n + 1) in Hd0 by lia.
    destruct (decode_line_inv _ _ _ _ _ Hd0 ltac:(discriminate))
      as (row0 & Hnew & Hval).
    unfold CSVParserIterator.incr.
    rewrite (advance_unlines l ls (CSVParserIterator.mk row false n) row0);
      cbn [CSVParserIterator.lineNumber CSVParserIterator.end_];
      [| assumption | unfold CSVParserIterator.INT_MAX in *; cbn [List.length] in Hmax; lia
       | assumption].
    rewrite (IH tups row0 tup0 (n + 1) fuel); try assumption.
    + rewrite shl_tuple_stream. cbn [rows_text].
      now rewrite !append_assoc_local.
    + cbn in Hlen. lia.
    + intros i Hi. specialize (Hdec (S i) ltac:(cbn; lia)). cbn [nth] in Hdec.
      replace (n + 1 + 1 + Z.of_nat i) with (n + 1 + Z.of_nat (S i)) by lia.
      exact Hdec.
    + lia.
    + cbn [List.length] in Hmax. lia.
    + cbn [List.length] in Hfuel. lia.
Qed.

(** The loop from a row that decodes, over lines that decode up to a line
    whose decoding throws. *)
Lemma for_rows_bad (T : ctype) (Rest : list ctype) (e : CSVParserIterator.t)
    (bad : string) (rest : list string) (x : exn) (good : list string) :
  CSVParserIterator.end_ e = true ->
  free_of "010" bad = true ->
  forall (tups : list (list value)) (row : CSVRow.t) (tup : list value)
         (n : Z) (fuel : nat) (out : ostream),
    forallb (free_of "010") good = true ->
    List.length tups = List.length good ->
    CSVRow.getValues row T Rest = Ok tup ->
    (forall i, (i < List.length good)%nat ->
       decode_line T Rest (n + 1 + Z.of_nat i) (nth i good EmptyString)
       = Ok (nth i tups [])) ->
    decode_line T Rest (n + 1 + Z.of_nat (List.length good)) bad = Throw x ->
    0 <= n -> n + Z.of_nat (List.length good) < CSVParserIterator.INT_MAX ->
    (List.length good + 1 < fuel)%nat ->
    for_rows fuel T Rest (ifstream (unlines (good ++ bad :: rest)))
             (CSVParserIterator.mk row false n) e out
    = Some (out ++ rows_text (tup :: tups), Throw x).
Proof.
  intros He Hb. induction good as [|l ls IH];
    intros tups row tup n fuel out Hf Hlen Hrow Hdec Hbad H0 Hmax Hfuel.
  - destruct tups; [|discriminate].
    destruct fuel as [|[|fuel]]; try (cbn in Hfuel; lia).
    cbn [List.length] in Hbad.
    replace (n + 1 + Z.of_nat 0) with (n + 1) in Hbad by lia.
    destruct (decode_line_inv _ _ _ _ _ Hbad ltac:(discriminate))
      as (rowb & Hnew & Hval).
    cbn [for_rows app]. unfold CSVParserIterator.neq at 1.
    cbn [CSVParserIterator.end_]. rewrite He. cbn [Bool.eqb negb].
    unfold CSVParserIterator.deref at 1. cbn [CSVParserIterator.currentRow].
    rewrite Hrow. cbv zeta. unfold CSVParserIterator.incr.
    rewrite (advance_unlines bad rest (CSVParserIterator.mk row false n) rowb);
      cbn [CSVParserIterator.lineNumber CSVParserIterator.end_];
      [| assumption | unfold CSVParserIterator.INT_MAX in *; cbn [List.length] in Hmax; lia
       | assumption].
    unfold CSVParserIterator.neq. cbn [CSVParserIterator.end_].
    rewrite He. cbn [Bool.eqb negb].
    unfold CSVParserIterator.deref. cbn [CSVParserIterator.currentRow].
    rewrite Hval. rewrite shl_tuple_stream. cbn [rows_text].
    now rewrite !append_assoc_local, append_empty_r_local.
  - destruct tups as [|tup0 tups]; [discriminate|].
    cbn [forallb] in Hf. apply andb_true_iff in Hf as [Hl Hls].
    destruct fuel as [|fuel]; [lia|].
    cbn [for_rows app]. unfold CSVParserIterator.neq at 1.
    cbn [CSVParserIterator.end_]. rewrite He. cbn [Bool.eqb negb].
    unfold CSVParserIterator.deref. cbn [CSVParserIterator.currentRow].
    rewrite Hrow. cbv zeta.
    pose proof (Hdec 0%nat ltac:(cbn; lia)) as Hd0. cbn [nth] in Hd0.
    replace (n + 1 + Z.of_nat 0) with (n + 1) in Hd0 by lia.
    destruct (decode_line_inv _ _ _ _ _ Hd0 ltac:(discriminate))
      as (row0 & Hnew & Hval).
    unfold CSVParserIterator.incr.
    rewrite (advance_unlines l (ls ++ bad :: rest)
               (CSVParserIterator.mk row false n) row0);
      cbn [CSVParserIterator.lineNumber CSVParserIterator.end_];
      [| assumption | unfold CSVParserIterator.INT_MAX in *; cbn [List.length] in Hmax; lia
       | assumption].
    rewrite (IH tups row0 tup0 (n + 1) fuel); try assumption.
    + rewrite shl_tuple_stream. cbn [rows_text].
      now rewrite !append_assoc_local.
    + cbn in Hlen. lia.
    + intros i Hi. specialize (Hdec (S i) ltac:(cbn; lia)). cbn [nth] in Hdec.
      replace (n + 1 + 1 + Z.of_nat i) with (n + 1 + Z.of_nat (S i)) by lia.
      exact Hdec.
    + cbn [List.length] in Hbad.
      replace (n + 1 + 1 + Z.of_nat (List.length ls))
        with (n + 1 + Z.of_nat (S (List.length ls))) by lia.
      exact Hbad.
    + lia.
    + cbn [List.length] in Hmax. lia.
    + cbn [List.length] in Hfuel. lia.
Qed.

Lemma end_flag (file : istream) (p : CSVParser.t) :
  exists e, CSVParser.end_ file p = Ok (file, e) /\
            CSVParserIterator.end_ e = true.
Proof. eexists. split; [apply end_iterator | reflexivity]. Qed.

(** X12.  Over a file of newline-terminated lines that all decode, the
    program writes the tuples of all the lines to the standard output, one
    per line and in the order of the file, writes nothing to the error
    stream and returns 0.  An empty file gives no output. *)
Theorem main_prints_rows (lines : list string) (tuples : list (list value))
    (T : ctype) (Rest : list ctype) (fuel : nat) :
  forallb (free_of "010") lines = true ->
  List.length tuples = List.length lines ->
  (forall i, (i < List.length lines)%nat ->
     decode_line T Rest (Z.of_nat i + 1) (nth i lines EmptyString)
     = Ok (nth i tuples [])) ->
  Z.of_nat (List.length lines) <= CSVParserIterator.INT_MAX ->
  (List.length lines < fuel)%nat ->
  main fuel T Rest (ifstream (unlines lines))
  = Some ({| cout := rows_text tuples; cerr := EmptyString |}, Ok 0).
Proof.
  intros Hf Hlen Hdec Hmax Hfuel. unfold main.
  cbn [CSVParser.new CSVParser.skip].
  unfold CSVParser.begin, CSVParserIterator.new.
  cbn [CSVParser.delimiter CSVParser.quote CSVRow.new empty negb bind].
  destruct lines as [|l ls].
  - destruct tuples; [|discriminate].
    destruct fuel as [|fuel]; [lia|]. reflexivity.
  - destruct tuples as [|tup tups]; [discriminate|].
    cbn [forallb] in Hf. apply andb_true_iff in Hf as [Hl Hls].
    pose proof (Hdec 0%nat ltac:(cbn; lia)) as Hd0. cbn [nth] in Hd0.
    change (Z.of_nat 0 + 1) with 1 in Hd0.
    destruct (decode_line_inv _ _ _ _ _ Hd0 ltac:(discriminate))
      as (row & Hnew & Hval).
    rewrite (advance_unlines l ls _ row);
      cbn [CSVParserIterator.lineNumber CSVParserIterator.end_];
      [| assumption | discriminate | exact Hnew].
    destruct (end_flag (ifstream (unlines ls))
                {| CSVParser.delimiter := ","; CSVParser.quote := "034" |})
      as (e & -> & He).
    change (0 + 1) with 1.
    rewrite (for_rows_good T Rest e ls He tups row tup 1 fuel EmptyString);
      try assumption; try lia.
    + reflexivity.
    + cbn in Hlen. lia.
    + intros i Hi. specialize (Hdec (S i) ltac:(cbn; lia)). cbn [nth] in Hdec.
      replace (1 + 1 + Z.of_nat i) with (Z.of_nat (S i) + 1) by lia.
      exact Hdec.
    + cbn [List.length] in Hmax. lia.
    + cbn [List.length] in Hfuel. lia.
Qed.

Lemma main_prints_rows_witness :
  main 3 Tstring [Tnum Tint] (ifstream (unlines ["a, 1"; "'b c',-2"]))
  = Some ({| cout := rows_text [[Vstring "a"; Vnum Tint 1];
                                [Vstring "'b c'"; Vnum Tint (-2)]];
             cerr := EmptyString |}, Ok 0).
Proof.
  apply (main_prints_rows ["a, 1"; "'b c',-2"]
           [[Vstring "a"; Vnum Tint 1]; [Vstring "'b c'"; Vnum Tint (-2)]]
           Tstring [Tnum Tint] 3).
  - reflexivity.
  - reflexivity.
  - intros i Hi. cbn in Hi.
    destruct i as [|[|i]]; [reflexivity | reflexivity | lia].
  - cbn. lia.
  - cbn. lia.
Defined.

(** X13.  When the lines decode up to a line whose decoding throws, the
    program writes the tuples of the lines before it to the standard output
    and one message to the error stream, which names the number of the
    failing line in the file (counted from 1) and the column of the failing
    field (counted from 0); it reads no further line and returns 0. *)
Theorem main_stops_at_first_error (good : list string) (bad : string)
    (rest : list string) (tuples : list (list value))
    (T : ctype) (Rest : list ctype) (fuel : nat) (x : exn) :
  forallb (free_of "010") good = true ->
  free_of "010" bad = true ->
  List.length tuples = List.length good ->
  (forall i, (i < List.length good)%nat ->
     decode_line T Rest (Z.of_nat i + 1) (nth i good EmptyString)
     = Ok (nth i tuples [])) ->
  decode_line T Rest (Z.of_nat (List.length good) + 1) bad = Throw x ->
  Z.of_nat (List.length good) < CSVParserIterator.INT_MAX ->
  (List.length good < fuel)%nat ->
  exists column,
    x = CSVParseException "Error parsing value"
                          (Z.of_nat (List.length good) + 1) column /\
    main fuel T Rest (ifstream (unlines (good ++ bad :: rest)))
    = Some ({| cout := rows_text tuples;
               cerr := "Error at line "
                       ++ put_integer (Z.of_nat (List.length good) + 1)
                       ++ ", column " ++ put_integer column
                       ++ ": Error parsing value" ++ nl |}, Ok 0).
Proof.
  intros Hf Hb Hlen Hdec Hbad Hmax Hfuel.
  destruct (decode_line_inv _ _ _ _ _ Hbad ltac:(discriminate))
    as (rowb & Hnewb & Hvalb).
  destruct (convertToTuple_throws _ _ _ _ _ Hvalb) as (column & Hx).
  rewrite (new_LineNumber _ _ _ _ _ Hnewb) in Hx.
  exists column. split; [exact Hx|]. unfold main.
  cbn [CSVParser.new CSVParser.skip].
  unfold CSVParser.begin, CSVParserIterator.new.
  cbn [CSVParser.delimiter CSVParser.quote CSVRow.new empty negb bind].
  destruct good as [|l ls].
  - destruct tuples; [|discriminate]. cbn [List.length app] in *.
    change (Z.of_nat 0 + 1) with 1 in *.
    rewrite (advance_unlines bad rest _ rowb);
      cbn [CSVParserIterator.lineNumber CSVParserIterator.end_];
      [| assumption | discriminate | exact Hnewb].
    destruct (end_flag (ifstream (unlines rest))
                {| CSVParser.delimiter := ","; CSVParser.quote := "034" |})
      as (e & -> & He).
    destruct fuel as [|fuel]; [lia|].
    cbn [for_rows]. unfold CSVParserIterator.neq, CSVParserIterator.deref.
    cbn [CSVParserIterator.end_ CSVParserIterator.currentRow].
    rewrite He. cbn [Bool.eqb negb]. rewrite Hvalb, Hx. reflexivity.
  - destruct tuples as [|tup tups]; [discriminate|].
    cbn [forallb] in Hf. apply andb_true_iff in Hf as [Hl Hls].
    pose proof (Hdec 0%nat ltac:(cbn; lia)) as Hd0. cbn [nth] in Hd0.
    change (Z.of_nat 0 + 1) with 1 in Hd0.
    destruct (decode_line_inv _ _ _ _ _ Hd0 ltac:(discriminate))
      as (row & Hnew & Hval).
    cbn [app]. rewrite (advance_unlines l (ls ++ bad :: rest) _ row);
      cbn [CSVParserIterator.lineNumber CSVParserIterator.end_];
      [| assumption | discriminate | exact Hnew].
    destruct (end_flag (ifstream (unlines (ls ++ bad :: rest)))
                {| CSVParser.delimiter := ","; CSVParser.quote := "034" |})
      as (e & -> & He).
    change (0 + 1) with 1.
    rewrite (for_rows_bad T Rest e bad rest x ls He Hb tups row tup 1 fuel
               EmptyString); try assumption; try lia.
    + rewrite Hx. reflexivity.
    + cbn in Hlen. lia.
    + intros i Hi. specialize (Hdec (S i) ltac:(cbn; lia)). cbn [nth] in Hdec.
      replace (1 + 1 + Z.of_nat i) with (Z.of_nat (S i) + 1) by lia.
      exact Hdec.
    + cbn [List.length] in Hbad.
      replace (1 + 1 + Z.of_nat (List.length ls))
        with (Z.of_nat (S (List.length ls)) + 1) by lia.
      exact Hbad.
    + cbn [List.length] in Hmax. lia.
    + cbn [List.length] in Hfuel. lia.
Qed.

Lemma main_stops_at_first_error_witness :
  exists column,
    CSVParseException "Error parsing value" 2 1
    = CSVParseException "Error parsing value" (Z.of_nat 1 + 1) column /\
    main 2 Tstring [Tnum Tint]
         (ifstream (unlines (["Alice,30"] ++ "Bob,thirty" :: ["Carol,,"])))
    = Some ({| cout := rows_text [[Vstring "Alice"; Vnum Tint 30]];
               cerr := "Error at line " ++ put_integer (Z.of_nat 1 + 1)
                       ++ ", column " ++ put_integer column
                       ++ ": Error parsing value" ++ nl |}, Ok 0).
Proof.
  apply (main_stops_at_first_error ["Alice,30"] "Bob,thirty" ["Carol,,"]
           [[Vstring "Alice"; Vnum Tint 30]] Tstring [Tnum Tint] 2
           (CSVParseException "Error parsing value" 2 1)).
  - reflexivity.
  - reflexivity.
  - reflexivity.
  - intros i Hi. cbn in Hi. destruct i as [|i]; [reflexivity | lia].
  - reflexivity.
  - cbn. lia.
  - cbn. lia.
Defined.

Lemma failed_exhausted (file : istream) :
  fail file = true -> exhausted file = true.
Proof.
  unfold fail, exhausted, getline, good. intros H. rewrite H.
  rewrite andb_false_r. reflexivity.
Qed.

(** X14.  A stream in a failed state, as left by a file that could not be
    opened, behaves as an empty file: whatever the number of lines to skip,
    [begin()] returns an iterator at its end without throwing, and the
    program writes nothing and returns 0. *)
Theorem failed_file_is_empty (file : istream) (k fuel : nat) (d q : ascii)
    (T : ctype) (Rest : list ctype) :
  fail file = true ->
  (exists file' it, open_stream file k d q = Ok (file', it) /\
                    CSVParserIterator.end_ it = true) /\
  main (S fuel) T Rest file
  = Some ({| cout := EmptyString; cerr := EmptyString |}, Ok 0).
Proof.
  intros H. pose proof (failed_exhausted file H) as Hex. split.
  - rewrite open_stream_pull. unfold CSVParserIterator.incr.
    rewrite advance_exhausted by (now apply skip_exhausted).
    do 2 eexists. split; reflexivity.
  - unfold main. cbn [CSVParser.new CSVParser.skip].
    unfold CSVParser.begin, CSVParserIterator.new.
    cbn [CSVParser.delimiter CSVParser.quote CSVRow.new empty negb bind].
    rewrite advance_exhausted by assumption. reflexivity.
Qed.

Lemma failed_file_is_empty_witness :
  (exists file' it,
     open_stream (mk_istream EmptyString false true) 3 ";" "'" = Ok (file', it) /\
     CSVParserIterator.end_ it = true) /\
  main 1 Tstring [Tnum Tint] (mk_istream EmptyString false true)
  = Some ({| cout := EmptyString; cerr := EmptyString |}, Ok 0).
Proof.
  apply (failed_file_is_empty (mk_istream EmptyString false true) 3 0 ";" "'"
           Tstring [Tnum Tint]).
  reflexivity.
Defined.

Lemma process_cells_plain_app (q : ascii) (cells rest : list string) :
  forall vals : list string,
    Forall (fun c => c <> EmptyString /\ starts_with q c = false) cells ->
    process_cells q false (cells ++ rest) vals =
    process_cells q false rest (vals ++ cells)%list.
Proof.
  induction cells as [|c cs IH]; intros vals H.
  - cbn. now rewrite app_nil_r.
  - inversion H as [|? ? [Hne Hs] Hcs]; subst. cbn [app process_cells].
    rewrite parse_cell_plain by assumption. rewrite IH by assumption.
    now rewrite <- app_assoc.
Qed.

(** X15.  A cell that consists of the quote character alone is both the
    first and the last character of itself: it gives an empty token and
    opens no quoted span, so the fields after it are kept as they are. *)
Theorem lone_quote_cell (before after : list string) (d q : ascii) (n : Z) :
  d <> q ->
  forallb (fun f => negb (empty f) && free_of d f && negb (starts_with q f))
          (before ++ after) = true ->
  CSVRow.new (join d (before ++ String q EmptyString :: after)) d q n
  = Ok (CSVRow.mk n (before ++ EmptyString :: after) d q).
Proof.
  intros Hdq H. rewrite forallb_app in H. apply andb_true_iff in H as [Hb Ha].
  rewrite forallb_forall in Hb, Ha.
  assert (Hplain : forall l : list string,
            (forall f, In f l ->
               negb (empty f) && free_of d f && negb (starts_with q f) = true) ->
            Forall (fun c => c <> EmptyString /\ starts_with q c = false) l /\
            Forall (fun f => free_of d f = true /\ f <> EmptyString) l).
  { intros l Hl. split; apply Forall_forall; intros f Hf; specialize (Hl f Hf);
      apply andb_true_iff in Hl as [Hl Hs]; apply andb_true_iff in Hl as [He Hd];
      apply negb_true_iff in Hs; split; try assumption;
      destruct f; discriminate. }
  destruct (Hplain before Hb) as [Hb1 Hb2].
  destruct (Hplain after Ha) as [Ha1 Ha2].
  rewrite new_cells, getline_cells_join.
  - rewrite process_cells_plain_app by assumption. cbn [process_cells].
    unfold CSVRow.parse_cell at 1. cbn [negb front back bind last_char].
    rewrite Ascii.eqb_refl. cbn [bind].
    change (substr (String q EmptyString) 1
              (size_t_sub (size (String q EmptyString)) 2))
      with (Ok EmptyString : outcome string).
    cbn [bind]. rewrite process_cells_plain by assumption.
    cbn [bind app]. now rewrite <- app_assoc.
  - apply Forall_app. split; [assumption|]. constructor; [|assumption].
    split; [|discriminate]. unfold free_of. cbn.
    destruct (Ascii.eqb_spec q d); [congruence | reflexivity].
Qed.

Lemma lone_quote_cell_witness :
  CSVRow.new (join "," (["a"] ++ String "'" EmptyString :: ["b'"; "c"])) "," "'" 1
  = Ok (CSVRow.mk 1 (["a"] ++ EmptyString :: ["b'"; "c"]) "," "'").
Proof.
  apply (lone_quote_cell ["a"] ["b'"; "c"] "," "'" 1);
    [discriminate | reflexivity].
Defined.

(** * Numeric conversion for every numeric target type *)

Lemma extract_signed_extract (t : inttype) (strm : istream) :
  extract t strm = Numeric.extract_signed (int_min t) (int_max t) strm.
Proof. reflexivity. Qed.

(** On the signed types of the schema the two embeddings of
    [convertFromString] agree. *)
Lemma convertFromString_numeric (str : string) :
  (forall z, convertFromString (Tnum Tshort) str = Ok (Vnum Tshort z) <->
             Numeric.convertFromString Numeric.Short str = Ok (Numeric.Integer z)) /\
  (forall z, convertFromString (Tnum Tint) str = Ok (Vnum Tint z) <->
             Numeric.convertFromString Numeric.Int str = Ok (Numeric.Integer z)) /\
  (forall z, convertFromString (Tnum Tlong) str = Ok (Vnum Tlong z) <->
             Numeric.convertFromString Numeric.Long str = Ok (Numeric.Integer z)).
Proof.
  repeat split;
    unfold convertFromString, Numeric.convertFromString, Numeric.extract;
    cbn [Numeric.kind_of]; rewrite extract_signed_extract;
    cbn [int_min int_max];
    match goal with
    | |- context [Numeric.extract_signed ?lo ?hi ?x] =>
        destruct (Numeric.extract_signed lo hi x) as [ss [v|]]
    end; cbn [option_map];
    destruct (fail ss || negb (eof ss)); try discriminate;
    intros H; injection H as <-; reflexivity.
Qed.
















